(** * YouTube transcript API: a shallow embedding of [index.ts]

    The repository holds one Express handler in two variants: [index.ts]
    (primary fetch through youtubei.js with a yt-dlp fallback) and a
    primary-only variant with a richer error classification.  Both
    share three pure helpers: [decodeHtmlEntities], [extractTextFromSegment]
    and [extractVideoId].

    Conventions of the embedding:
    - a JavaScript string is a [string]; the development is about ASCII
      text, where the number of UTF-16 code units is the number of
      characters;
    - an optional field ([x?: T]), [null] and [undefined] are [option];
    - truthiness is written out: a string is truthy when it is not empty,
      an object or an array is truthy when it is there;
    - a JavaScript number is a [number]: NaN, one of the two infinities,
      or a finite double, given as the rational it is; what is parsed or
      computed is rounded to the nearest double, ties to even, and is
      infinite from [2 ^ 1024] on (the sign of zero is left out);
    - [try]/[catch] is the sum type [Exc] with explicit handlers. *)

From Stdlib Require Import String Ascii List Bool Arith ZArith QArith Lia.
Import ListNotations.

Close Scope Q_scope.
Open Scope string_scope.

(** ** JavaScript string primitives *)

Module JsString.

(** Truthiness of a string: [!s] is true exactly for the empty string. *)
Definition truthy (s : string) : bool :=
  match s with
  | EmptyString => false
  | String _ _ => true
  end.

(** [s.startsWith(p)] *)
Definition startsWith (s p : string) : bool := prefix p s.

(** [s.includes(sub)] *)
Fixpoint includes (s sub : string) : bool :=
  prefix sub s ||
  match s with
  | EmptyString => false
  | String _ s' => includes s' sub
  end.

(** [s.substring(n)]: what is left after the first [n] characters. *)
Fixpoint substring_from (n : nat) (s : string) : string :=
  match n, s with
  | O, _ => s
  | S _, EmptyString => EmptyString
  | S k, String _ s' => substring_from k s'
  end.

(** [s.endsWith(p)] *)
Definition endsWith (s p : string) : bool :=
  Nat.leb (String.length p) (String.length s) &&
  String.eqb (substring_from (String.length s - String.length p) s) p.

(** [s.replace(/pat/g, rep)] for a literal, non-empty pattern [pat] and a
    replacement without [$]: the scan goes left to right, a match emits
    [rep] and resumes after the matched text (the output is never
    rescanned).  [skip] counts the characters of a match still to be
    passed over. *)
Fixpoint replace_go (pat rep : string) (skip : nat) (s : string) : string :=
  match s with
  | EmptyString => EmptyString
  | String c s' =>
      match skip with
      | S k => replace_go pat rep k s'
      | O =>
          if prefix pat s
          then rep ++ replace_go pat rep (String.length pat - 1) s'
          else String c (replace_go pat rep 0 s')
      end
  end.

Definition replaceAll (pat rep s : string) : string := replace_go pat rep 0 s.

(** [runs.join('')] on an array of strings. *)
Definition join (l : list string) : string := String.concat "" l.

End JsString.
Import JsString.

(** ** The entity decoder ([decodeHtmlEntities]) *)

(** The one-character string holding a double quote. *)
Definition dquote : string := String "034"%char "".

Definition decodeHtmlEntities (text : option string) : string :=
  match text with
  | None => ""
  | Some t =>
      if negb (truthy t) then ""
      else
        replaceAll "&nbsp;" " "
          (replaceAll "&#39;" "'"
            (replaceAll "&quot;" dquote
              (replaceAll "&gt;" ">"
                (replaceAll "&lt;" "<"
                  (replaceAll "&amp;" "&" t)))))
  end.

(** The decoder as the specification words it: the six replacements of a
    table, applied one after the other in the order of the table. *)
Definition entity_table : list (string * string) :=
  [ ("&amp;", "&"); ("&lt;", "<"); ("&gt;", ">");
    ("&quot;", dquote); ("&#39;", "'"); ("&nbsp;", " ") ].

Definition decode_spec (text : option string) : string :=
  match text with
  | None => ""
  | Some t => fold_left (fun acc er => replaceAll (fst er) (snd er) acc) entity_table t
  end.

(** A string holds none of the six recognised entity sequences. *)
Definition no_entities (s : string) : Prop :=
  Forall (fun er => includes s (fst er) = false) entity_table.

(** ** JavaScript numbers and [parseFloat] *)

Module JsNumber.

Inductive number : Type :=
| NaN
| PosInf
| NegInf
| Fin (q : Q).

(** The double nearest to the positive rational [n / d]: [e] is the
    exponent of the last bit of its 53-bit significand, not below that of
    the subnormals; the significand is the quotient, rounded to nearest
    with ties to even; from [2 ^ 1024] on the result is infinite. *)
Definition round_pos (n d : positive) : number :=
  let k := (Z.log2 (Zpos n) - Z.log2 (Zpos d))%Z in
  let below :=
    if (0 <=? k)%Z then (Zpos n <? Zpos d * 2 ^ k)%Z
    else (Zpos n * 2 ^ (- k) <? Zpos d)%Z in
  let e := Z.max (if below then k - 53 else k - 52) (-1074) in
  let num := if (0 <=? e)%Z then Zpos n else (Zpos n * 2 ^ (- e))%Z in
  let den := if (0 <=? e)%Z then (Zpos d * 2 ^ e)%Z else Zpos d in
  let m := (num / den)%Z in
  let r := (num mod den)%Z in
  let m' := if (den <? 2 * r)%Z || ((2 * r =? den)%Z && Z.odd m)
            then (m + 1)%Z else m in
  if (0 <=? e)%Z && (2 ^ 1024 <=? m' * 2 ^ e)%Z then PosInf
  else Fin (Qred (if (0 <=? e)%Z then Qmake (m' * 2 ^ e) 1
                  else Qmake m' (Z.to_pos (2 ^ (- e))))).

(** [- a] *)
Definition num_neg (a : number) : number :=
  match a with
  | NaN => NaN
  | PosInf => NegInf
  | NegInf => PosInf
  | Fin q => Fin (Qred (Qopp q))
  end.

(** The Number value for a rational: the nearest double. *)
Definition round (q : Q) : number :=
  match Qnum q with
  | Z0 => Fin 0
  | Zpos n => round_pos n (Qden q)
  | Zneg n => num_neg (round_pos n (Qden q))
  end.

(** [a - b] *)
Definition num_sub (a b : number) : number :=
  match a, b with
  | NaN, _ => NaN
  | _, NaN => NaN
  | PosInf, PosInf => NaN
  | NegInf, NegInf => NaN
  | PosInf, _ => PosInf
  | NegInf, _ => NegInf
  | Fin _, PosInf => NegInf
  | Fin _, NegInf => PosInf
  | Fin x, Fin y => round (x - y)
  end.

(** [a / d] for a positive integer literal [d] (the source only divides
    by [1000]). *)
Definition num_div (a : number) (d : positive) : number :=
  match a with
  | Fin x => round (x / (Zpos d # 1))
  | other => other
  end.


Definition zero : number := Fin 0.

(** White space that [parseFloat] skips at the start (ASCII part of
    StrWhiteSpaceChar: TAB, LF, VT, FF, CR, SP). *)
Definition is_ws (c : ascii) : bool :=
  let n := nat_of_ascii c in
  (Nat.leb 9 n && Nat.leb n 13) || Nat.eqb n 32.

Fixpoint skip_ws (s : string) : string :=
  match s with
  | String c s' => if is_ws c then skip_ws s' else s
  | EmptyString => s
  end.

Definition digit_of (c : ascii) : option Z :=
  let n := nat_of_ascii c in
  if Nat.leb 48 n && Nat.leb n 57 then Some (Z.of_nat (n - 48)) else None.

(** Reads the longest run of decimal digits at the start of [s], on top
    of the value [acc] and the count [cnt] read so far. *)
Fixpoint read_digits (acc : Z) (cnt : nat) (s : string) : Z * nat * string :=
  match s with
  | String c s' =>
      match digit_of c with
      | Some d => read_digits (10 * acc + d) (S cnt) s'
      | None => (acc, cnt, s)
      end
  | EmptyString => (acc, cnt, s)
  end.

Definition read_sign (s : string) : bool * string :=
  match s with
  | String "-" s' => (true, s')
  | String "+" s' => (false, s')
  | _ => (false, s)
  end.

(** The exponent part [e±ddd] at the start of [s], [0] when there is
    none (an [e] without digits is not part of the literal). *)
Definition read_exponent (s : string) : Z :=
  match s with
  | String c r =>
      if Ascii.eqb c "e" || Ascii.eqb c "E" then
        let (eneg, r') := read_sign r in
        let '(ev, en, _) := read_digits 0 0 r' in
        if Nat.eqb en 0 then 0%Z else if eneg then (- ev)%Z else ev
      else 0%Z
  | EmptyString => 0%Z
  end.

(** [parseFloat(s)]: leading white space is skipped, the longest prefix
    that is a StrDecimalLiteral is read (sign, [Infinity], digits with
    an optional fraction and exponent), and a string without such a
    prefix gives NaN.  The value is the double nearest to the decimal. *)
Definition parseFloat (s : string) : number :=
  let (neg, t) := read_sign (skip_ws s) in
  if prefix "Infinity" t then (if neg then NegInf else PosInf)
  else
    let '(ip, ni, r1) := read_digits 0 0 t in
    let '(m, nd, r2) :=
      match r1 with
      | String "." r => read_digits ip ni r
      | _ => (ip, ni, r1)
      end in
    if Nat.eqb nd 0 then NaN
    else
      let k := (read_exponent r2 - Z.of_nat (nd - ni))%Z in
      let q := if (0 <=? k)%Z then Qmake (m * 10 ^ k) 1
               else Qmake m (Z.to_pos (10 ^ (- k))) in
      round (if neg then Qopp q else q).

End JsNumber.
Import JsNumber.

(** ** Raw transcript segments

    The interfaces of the source.  [AnySegment] is the object that
    [extractTextFromSegment] and the handler probe field by field: it
    carries every field either of them reads, each optional. *)

Record TextRun : Type := mkRun { run_text : string }.

Record Snippet : Type := mkSnippet {
  snippet_text : option string;
  snippet_runs : option (list TextRun)
}.

Record TranscriptSegmentRenderer : Type := mkTsr {
  tsr_snippet : option Snippet;
  tsr_text : option string;
  tsr_runs : option (list TextRun);
  tsr_start_ms : option string;
  tsr_end_ms : option string
}.

(** The object under [cue_renderer]. *)
Record Cue_renderer : Type := mkCue {
  cue_text : option Snippet;
  cue_start_offset_ms : option string;
  cue_duration_ms : option string
}.

Record CueRenderer : Type := mkCueRenderer {
  cue_renderer : option Cue_renderer
}.

(** The object under [cue_group_renderer]. *)
Record Cue_group_renderer : Type := mkCueGroup {
  cues : option (list CueRenderer)
}.

(** [text?: string | Snippet] *)
Inductive TextField : Type :=
| TextString (s : string)
| TextObject (o : Snippet).

Record AnySegment : Type := mkSegment {
  transcript_segment_renderer : option TranscriptSegmentRenderer;
  cue_group_renderer : option Cue_group_renderer;
  seg_text : option TextField;
  seg_runs : option (list TextRun);
  seg_snippet : option Snippet;
  seg_start_ms : option string;
  seg_end_ms : option string;
  seg_duration_ms : option string
}.

(** The handler passes the unwrapped renderer and the unwrapped cue to
    [extractTextFromSegment]; seen as an [AnySegment] each shows the
    fields its interface declares and no wrapper field. *)
Definition segment_of_tsr (tsr : TranscriptSegmentRenderer) : AnySegment :=
  {| transcript_segment_renderer := None;
     cue_group_renderer := None;
     seg_text := option_map TextString (tsr_text tsr);
     seg_runs := tsr_runs tsr;
     seg_snippet := tsr_snippet tsr;
     seg_start_ms := tsr_start_ms tsr;
     seg_end_ms := tsr_end_ms tsr;
     seg_duration_ms := None |}.

Definition segment_of_cue (cue : Cue_renderer) : AnySegment :=
  {| transcript_segment_renderer := None;
     cue_group_renderer := None;
     seg_text := option_map TextObject (cue_text cue);
     seg_runs := None;
     seg_snippet := None;
     seg_start_ms := None;
     seg_end_ms := None;
     seg_duration_ms := cue_duration_ms cue |}.

(** [runs.map(run => run.text).join('')] *)
Definition runs_joined (runs : list TextRun) : string :=
  join (map run_text runs).

(** [o?.text] as a truthy string: the text when it is there and not empty. *)
Definition truthy_string (o : option string) : option string :=
  match o with
  | Some s => if truthy s then Some s else None
  | None => None
  end.

(** [s || '0'] *)
Definition or_zero (o : option string) : string :=
  match truthy_string o with
  | Some s => s
  | None => "0"
  end.

(** [segment.cue_group_renderer?.cues?.[0]?.cue_renderer] *)
Definition first_cue (seg : AnySegment) : option Cue_renderer :=
  match cue_group_renderer seg with
  | Some g =>
      match cues g with
      | Some (c :: _) => cue_renderer c
      | _ => None
      end
  | None => None
  end.

(** The two tests on a snippet that recur in the source:
    [if (snippet.text) return snippet.text;
     if (snippet.runs) return snippet.runs.map(...).join('');] *)
Definition snippet_text_or_runs (sn : Snippet) : option string :=
  match truthy_string (snippet_text sn) with
  | Some s => Some s
  | None => option_map runs_joined (snippet_runs sn)
  end.

(** [extractTextFromSegment].  Each [if] block returns when one of its
    inner tests succeeds and otherwise falls through to the next block;
    [orelse] is that fall-through. *)
Definition orelse {A} (o : option A) (k : option A) : option A :=
  match o with
  | Some a => Some a
  | None => k
  end.

Definition from_renderer (seg : AnySegment) : option string :=
  match transcript_segment_renderer seg with
  | Some tsr =>
      orelse (truthy_string (match tsr_snippet tsr with
                             | Some sn => snippet_text sn
                             | None => None
                             end))
     (orelse (truthy_string (tsr_text tsr))
     (orelse (option_map runs_joined (match tsr_snippet tsr with
                                      | Some sn => snippet_runs sn
                                      | None => None
                                      end))
             (option_map runs_joined (tsr_runs tsr))))
  | None => None
  end.

Definition from_cue_group (seg : AnySegment) : option string :=
  match first_cue seg with
  | Some cue =>
      match cue_text cue with
      | Some sn => snippet_text_or_runs sn
      | None => None
      end
  | None => None
  end.

Definition from_text (seg : AnySegment) : option string :=
  match seg_text seg with
  | Some (TextString s) => if truthy s then Some s else None
  | Some (TextObject sn) => snippet_text_or_runs sn
  | None => None
  end.

Definition from_runs (seg : AnySegment) : option string :=
  option_map runs_joined (seg_runs seg).

Definition from_snippet (seg : AnySegment) : option string :=
  match seg_snippet seg with
  | Some sn => snippet_text_or_runs sn
  | None => None
  end.

Definition extractTextFromSegment (seg : AnySegment) : string :=
  match
    orelse (from_renderer seg)
   (orelse (from_cue_group seg)
   (orelse (from_text seg)
   (orelse (from_runs seg)
           (from_snippet seg))))
  with
  | Some s => s
  | None => ""
  end.

(** ** Normalised segments *)

Record TranscriptSegment : Type := mkTranscriptSegment {
  text : string;
  offset : number;
  duration : number
}.

(** The callback of [segments.map] in [index.ts]. *)
Definition normalizeSegment (segment : AnySegment) : TranscriptSegment :=
  match transcript_segment_renderer segment with
  | Some tsr =>
      {| text := decodeHtmlEntities (Some (extractTextFromSegment (segment_of_tsr tsr)));
         offset := num_div (parseFloat (or_zero (tsr_start_ms tsr))) 1000;
         duration := num_div (num_sub (parseFloat (or_zero (tsr_end_ms tsr)))
                                      (parseFloat (or_zero (tsr_start_ms tsr)))) 1000 |}
  | None =>
      match first_cue segment with
      | Some cue =>
          {| text := decodeHtmlEntities (Some (extractTextFromSegment (segment_of_cue cue)));
             offset := num_div (parseFloat (or_zero (cue_start_offset_ms cue))) 1000;
             duration := num_div (parseFloat (or_zero (cue_duration_ms cue))) 1000 |}
      | None =>
          {| text := decodeHtmlEntities (Some (extractTextFromSegment segment));
             offset :=
               match truthy_string (seg_start_ms segment) with
               | Some s => num_div (parseFloat s) 1000
               | None => zero
               end;
             duration :=
               match truthy_string (seg_end_ms segment), truthy_string (seg_start_ms segment) with
               | Some e, Some s => num_div (num_sub (parseFloat e) (parseFloat s)) 1000
               | _, _ => zero
               end |}
      end
  end.

(** [.filter(s => s.text)] *)
Definition keep_nonempty (l : list TranscriptSegment) : list TranscriptSegment :=
  filter (fun s => truthy (text s)) l.

(** [segments.map(...).filter(...)] of [index.ts]. *)
Definition formatSegments (segments : list AnySegment) : list TranscriptSegment :=
  keep_nonempty (map normalizeSegment segments).

(** The primary-only variant of the handler: its [segments.map] callback
    differs from the one above in the generic branch, which also reads
    [duration_ms]. *)
Module PrimaryOnly.

Definition normalizeSegment (segment : AnySegment) : TranscriptSegment :=
  match transcript_segment_renderer segment with
  | Some tsr =>
      {| text := decodeHtmlEntities (Some (extractTextFromSegment (segment_of_tsr tsr)));
         offset := num_div (parseFloat (or_zero (tsr_start_ms tsr))) 1000;
         duration := num_div (num_sub (parseFloat (or_zero (tsr_end_ms tsr)))
                                      (parseFloat (or_zero (tsr_start_ms tsr)))) 1000 |}
  | None =>
      match first_cue segment with
      | Some cue =>
          {| text := decodeHtmlEntities (Some (extractTextFromSegment (segment_of_cue cue)));
             offset := num_div (parseFloat (or_zero (cue_start_offset_ms cue))) 1000;
             duration := num_div (parseFloat (or_zero (cue_duration_ms cue))) 1000 |}
      | None =>
          {| text := decodeHtmlEntities (Some (extractTextFromSegment segment));
             offset :=
               match truthy_string (seg_start_ms segment) with
               | Some s => num_div (parseFloat s) 1000
               | None => zero
               end;
             duration :=
               match truthy_string (seg_duration_ms segment) with
               | Some d => num_div (parseFloat d) 1000
               | None =>
                   match truthy_string (seg_end_ms segment),
                         truthy_string (seg_start_ms segment) with
                   | Some e, Some s => num_div (num_sub (parseFloat e) (parseFloat s)) 1000
                   | _, _ => zero
                   end
               end |}
      end
  end.

Definition formatSegments (segments : list AnySegment) : list TranscriptSegment :=
  keep_nonempty (map normalizeSegment segments).

End PrimaryOnly.

(** ** The platform's [URL] class

    [new URL(input)] without a base, as the URL Standard's basic parser
    runs on ASCII input; only what the extractor reads is kept
    ([hostname], [pathname], the query behind [searchParams]).

    Not modelled, and outside the scope of the development:
    - the canonical form of IPv4 and IPv6 literals, which are kept as
      written;
    - international domain names: a host with characters outside ASCII,
      written out or percent-encoded, is mapped by the platform and may
      become one of the host names the extractor compares with, where
      the model keeps its bytes or rejects it;
    - the reading of percent-encoded bytes above 127 as UTF-8 in
      [searchParams] (an ill-formed sequence becomes U+FFFD there; the
      model keeps the bytes). *)

Module Url.

Local Open Scope char_scope.

Definition code (c : ascii) : nat := nat_of_ascii c.

Definition in_range (lo hi : nat) (c : ascii) : bool :=
  Nat.leb lo (code c) && Nat.leb (code c) hi.

Definition is_upper : ascii -> bool := in_range 65 90.
Definition is_alpha (c : ascii) : bool := is_upper c || in_range 97 122 c.
Definition is_digit : ascii -> bool := in_range 48 57.

Definition to_lower (c : ascii) : ascii :=
  if is_upper c then ascii_of_nat (code c + 32) else c.

Definition one_of (set : string) (c : ascii) : bool :=
  existsb (Ascii.eqb c) (list_ascii_of_string set).

Definition is_c0_or_space (c : ascii) : bool := Nat.leb (code c) 32.

Definition is_tab_or_newline (c : ascii) : bool :=
  Nat.eqb (code c) 9 || Nat.eqb (code c) 10 || Nat.eqb (code c) 13.

Fixpoint drop_while (p : ascii -> bool) (l : list ascii) : list ascii :=
  match l with
  | c :: l' => if p c then drop_while p l' else l
  | [] => []
  end.

(** The part of [l] before the first character in [p], and the rest
    from that character on. *)
Fixpoint break (p : ascii -> bool) (l : list ascii) : list ascii * list ascii :=
  match l with
  | c :: l' =>
      if p c then ([], l)
      else let (a, b) := break p l' in (c :: a, b)
  | [] => ([], [])
  end.

(** Splits at every character in [p]: [n] separators give [n + 1] pieces. *)
Fixpoint split_on (p : ascii -> bool) (l : list ascii) : list (list ascii) :=
  match l with
  | c :: l' =>
      if p c then [] :: split_on p l'
      else match split_on p l' with
           | piece :: rest => (c :: piece) :: rest
           | [] => [[c]]
           end
  | [] => [[]]
  end.

(** Leading and trailing C0 controls and spaces go, then every tab and
    newline. *)
Definition preprocess (input : string) : list ascii :=
  let l := drop_while is_c0_or_space (list_ascii_of_string input) in
  let l := rev (drop_while is_c0_or_space (rev l)) in
  filter (fun c => negb (is_tab_or_newline c)) l.

(** *** Percent encoding *)

Definition hex_char (n : nat) : ascii :=
  if Nat.ltb n 10 then ascii_of_nat (48 + n) else ascii_of_nat (55 + n).

Definition hex_value (c : ascii) : option nat :=
  if is_digit c then Some (code c - 48)
  else if in_range 65 70 c then Some (code c - 55)
  else if in_range 97 102 c then Some (code c - 87)
  else None.

Definition percent_encode (inset : ascii -> bool) (l : list ascii) : list ascii :=
  flat_map (fun c => if inset c
                     then ["%"; hex_char (code c / 16); hex_char (code c mod 16)]
                     else [c]) l.

Fixpoint percent_decode (l : list ascii) : list ascii :=
  match l with
  | c :: rest =>
      if Ascii.eqb c "%" then
        match rest with
        | h1 :: h2 :: rest' =>
            match hex_value h1, hex_value h2 with
            | Some a, Some b => ascii_of_nat (16 * a + b) :: percent_decode rest'
            | _, _ => c :: percent_decode rest
            end
        | _ => c :: percent_decode rest
        end
      else c :: percent_decode rest
  | [] => []
  end.

Definition c0_control_set (c : ascii) : bool :=
  Nat.leb (code c) 31 || Nat.ltb 126 (code c).

(** space, double quote, [#], [<], [>] on top of the C0 control set *)
Definition query_set (c : ascii) : bool :=
  c0_control_set c || Nat.eqb (code c) 34 || one_of " #<>" c.

Definition special_query_set (c : ascii) : bool :=
  query_set c || Ascii.eqb c "'".

(** [?], a backquote and the braces on top of the query set ([^] is left
    as it is, as the Node runtime leaves it). *)
Definition path_set (c : ascii) : bool :=
  query_set c || one_of "?`{}" c.

(** *** Schemes *)

Definition is_scheme_char (c : ascii) : bool :=
  is_alpha c || is_digit c || one_of "+-." c.

(** The scheme, in lower case, and what follows its colon. *)
Fixpoint scheme_and_rest (l : list ascii) : option (list ascii * list ascii) :=
  match l with
  | c :: l' =>
      if is_scheme_char c then
        match scheme_and_rest l' with
        | Some (sch, rest) => Some (to_lower c :: sch, rest)
        | None => None
        end
      else if Ascii.eqb c ":" then Some ([], l')
      else None
  | [] => None
  end.

Definition parse_scheme (l : list ascii) : option (string * list ascii) :=
  match l with
  | c :: _ =>
      if is_alpha c then
        match scheme_and_rest l with
        | Some (sch, rest) => Some (string_of_list_ascii sch, rest)
        | None => None
        end
      else None
  | [] => None
  end.

Definition is_special (scheme : string) : bool :=
  existsb (String.eqb scheme) ["http"; "https"; "ws"; "wss"; "ftp"; "file"]%string.

(** *** Hosts *)

Definition forbidden_host_code_point (c : ascii) : bool :=
  Nat.eqb (code c) 0 || is_tab_or_newline c || one_of " #/:<>?@[\]^|" c.

Definition forbidden_domain_code_point (c : ascii) : bool :=
  forbidden_host_code_point c || Nat.leb (code c) 31 ||
  Ascii.eqb c "%" || Nat.eqb (code c) 127.

Definition ends_with_bracket (l : list ascii) : bool :=
  match rev l with
  | c :: _ => Ascii.eqb c "]"
  | [] => false
  end.

(** The host parser: a bracketed literal must close; an opaque host (of
    a scheme that is not special) is kept, percent-encoded; a domain is
    percent-decoded and put in lower case, which is all the mapping of
    domain names does on ASCII. *)
Definition parse_host (opaque : bool) (l : list ascii) : option (list ascii) :=
  match l with
  | "[" :: _ => if ends_with_bracket l then Some l else None
  | _ =>
      if opaque then
        if existsb forbidden_host_code_point l then None
        else Some (percent_encode c0_control_set l)
      else
        let domain := map to_lower (percent_decode l) in
        if existsb forbidden_domain_code_point domain then None
        else Some domain
  end.

(** The host and the port of an authority: the first colon outside
    brackets separates them. *)
Fixpoint host_and_port (inside : bool) (l : list ascii) : list ascii * option (list ascii) :=
  match l with
  | c :: l' =>
      if Ascii.eqb c ":" && negb inside then ([], Some l')
      else
        let inside' := if Ascii.eqb c "[" then true
                       else if Ascii.eqb c "]" then false else inside in
        let (h, p) := host_and_port inside' l' in (c :: h, p)
  | [] => ([], None)
  end.

Definition decimal_value (l : list ascii) : N :=
  fold_left (fun acc c => (10 * acc + N.of_nat (code c - 48))%N) l 0%N.

Definition port_ok (p : option (list ascii)) : bool :=
  match p with
  | None => true
  | Some digits => forallb is_digit digits && N.leb (decimal_value digits) 65535
  end.

(** What follows the last [@] of an authority ([None] when credentials
    are given and nothing follows them). *)
Definition after_credentials (authority : list ascii) : option (list ascii) :=
  match split_on (Ascii.eqb "@") authority with
  | [whole] => Some whole
  | pieces =>
      match last pieces [] with
      | [] => None
      | hostport => Some hostport
      end
  end.

(** The host of an authority, [None] where the parser fails. *)
Definition parse_authority (special : bool) (authority : list ascii) : option (list ascii) :=
  match after_credentials authority with
  | None => None
  | Some hostport =>
      let (h, p) := host_and_port false hostport in
      match h, p with
      | [], Some _ => None
      | _, _ =>
          if special && match h with [] => true | _ => false end then None
          else if negb (port_ok p) then None
          else parse_host (negb special) h
      end
  end.

(** *** Paths *)

Definition lower_string (l : list ascii) : string :=
  string_of_list_ascii (map to_lower l).

Definition is_single_dot (segment : list ascii) : bool :=
  existsb (String.eqb (lower_string segment)) ["."; "%2e"]%string.

Definition is_double_dot (segment : list ascii) : bool :=
  existsb (String.eqb (lower_string segment)) [".."; ".%2e"; "%2e."; "%2e%2e"]%string.

(** A letter followed by [:] or [|]; normalised when it is [:]. *)
Definition is_drive_letter (segment : list ascii) : bool :=
  match segment with
  | [a; b] => is_alpha a && one_of ":|" b
  | _ => false
  end.

Definition is_normalized_drive_letter (segment : list ascii) : bool :=
  match segment with
  | [a; b] => is_alpha a && Ascii.eqb b ":"
  | _ => false
  end.

Definition shorten (file : bool) (path : list (list ascii)) : list (list ascii) :=
  match path with
  | [only] => if file && is_normalized_drive_letter only then path else []
  | _ => removelast path
  end.

(** The path state, one segment at a time; [rest = []] marks the segment
    that ends the path. *)
Fixpoint build_path (file : bool) (path : list (list ascii))
         (segments : list (list ascii)) : list (list ascii) :=
  match segments with
  | raw :: rest =>
      let ends := match rest with [] => true | _ => false end in
      let buffer := percent_encode path_set raw in
      if is_double_dot buffer then
        let path' := shorten file path in
        build_path file (if ends then path' ++ [[]] else path') rest
      else if is_single_dot buffer then
        build_path file (if ends then path ++ [[]] else path) rest
      else
        let buffer' :=
          match path, buffer with
          | [], [a; _] => if file && is_drive_letter buffer then [a; ":"] else buffer
          | _, _ => buffer
          end in
        build_path file (path ++ [buffer']) rest
  | [] => path
  end.

Definition serialize_path (path : list (list ascii)) : string :=
  string_of_list_ascii (flat_map (fun segment => "/" :: segment) path).

Definition is_separator (special : bool) (c : ascii) : bool :=
  Ascii.eqb c "/" || (special && Ascii.eqb c "\").

Definition ends_authority (special : bool) (c : ascii) : bool :=
  is_separator special c || one_of "?#" c.

(** *** The parsed URL *)

Record URL : Type := mkURL {
  scheme : string;
  hostname : string;
  pathname : string;
  query : option string
}.

(** The query of what follows the path: the text between [?] and [#],
    percent-encoded. *)
Definition parse_query (special : bool) (after_path : list ascii) : option string :=
  match after_path with
  | c :: l =>
      if Ascii.eqb c "?" then
        Some (string_of_list_ascii
                (percent_encode (if special then special_query_set else query_set)
                                (fst (break (Ascii.eqb "#") l))))
      else None
  | [] => None
  end.

(** The path state run on [l], which starts at the first character of
    the first segment, on top of a buffer already read. *)
Definition path_and_query (sch : string) (host : list ascii) (l : list ascii) : URL :=
  let special := is_special sch in
  let (p, after_path) := break (one_of "?#") l in
  {| scheme := sch;
     hostname := string_of_list_ascii host;
     pathname := serialize_path
                   (build_path (String.eqb sch "file") []
                               (split_on (is_separator special) p));
     query := parse_query special after_path |}.

(** The path start state: one separator at the start is passed over. *)
Definition path_start (sch : string) (host : list ascii) (l : list ascii) : URL :=
  let special := is_special sch in
  match l with
  | c :: l' =>
      if is_separator special c then path_and_query sch host l'
      else if special then path_and_query sch host l
      else {| scheme := sch; hostname := string_of_list_ascii host;
              pathname := ""; query := parse_query special l |}
  | [] =>
      if special then path_and_query sch host []
      else {| scheme := sch; hostname := string_of_list_ascii host;
              pathname := ""; query := None |}
  end.

Definition with_authority (sch : string) (l : list ascii) : option URL :=
  let special := is_special sch in
  let (authority, rest) := break (ends_authority special) l in
  match parse_authority special authority with
  | Some host => Some (path_start sch host rest)
  | None => None
  end.

(** The file states: no credentials and no port; a drive letter in the
    place of the host starts the path; [localhost] is the empty host. *)
Definition parse_file (l : list ascii) : option URL :=
  match l with
  | c1 :: c2 :: l' =>
      if is_separator true c1 then
        if is_separator true c2 then
          let (buffer, rest) := break (ends_authority true) l' in
          if is_drive_letter buffer then Some (path_and_query "file" [] l')
          else
            match buffer with
            | [] => Some (path_start "file" [] rest)
            | _ =>
                match parse_host false buffer with
                | Some host =>
                    Some (path_start "file"
                            (if String.eqb (string_of_list_ascii host) "localhost"
                             then [] else host) rest)
                | None => None
                end
            end
        else Some (path_and_query "file" [] (c2 :: l'))
      else Some (path_and_query "file" [] l)
  | [c1] =>
      if is_separator true c1 then Some (path_and_query "file" [] [])
      else Some (path_and_query "file" [] l)
  | [] => Some (path_and_query "file" [] [])
  end.

(** The parser on preprocessed input: the scheme decides how the rest is
    read. *)
Definition parse_preprocessed (l : list ascii) : option URL :=
  match parse_scheme l with
  | None => None
  | Some (sch, rest) =>
      if String.eqb sch "file" then parse_file rest
      else if is_special sch then
        with_authority sch (drop_while (is_separator true) rest)
      else
        match rest with
        | c1 :: rest1 =>
            if Ascii.eqb c1 "/" then
              match rest1 with
              | c2 :: rest2 =>
                  if Ascii.eqb c2 "/" then with_authority sch rest2
                  else Some (path_and_query sch [] rest1)
              | [] => Some (path_and_query sch [] [])
              end
            else
              let (p, after_path) := break (one_of "?#") rest in
              Some {| scheme := sch; hostname := "";
                      pathname := string_of_list_ascii (percent_encode c0_control_set p);
                      query := parse_query false after_path |}
        | [] => Some {| scheme := sch; hostname := ""; pathname := ""; query := None |}
        end
  end.

(** [new URL(input)]; [None] is the [TypeError] it throws. *)
Definition parse (input : string) : option URL :=
  parse_preprocessed (preprocess input).

(** *** [url.searchParams.get(name)] *)

Definition plus_to_space (c : ascii) : ascii :=
  if Ascii.eqb c "+" then " " else c.

Definition decode_component (l : list ascii) : string :=
  string_of_list_ascii (percent_decode (map plus_to_space l)).

(** The name and the value of one [name=value] piece of a query. *)
Definition parse_pair (piece : list ascii) : string * string :=
  let (name, rest) := break (Ascii.eqb "=") piece in
  (decode_component name, decode_component (tl rest)).

Definition search_params (u : URL) : list (string * string) :=
  match query u with
  | None => []
  | Some q =>
      map parse_pair
          (filter (fun piece => match piece with [] => false | _ => true end)
                  (split_on (Ascii.eqb "&") (list_ascii_of_string q)))
  end.

Definition searchParams_get (u : URL) (name : string) : option string :=
  match find (fun nv => String.eqb (fst nv) name) (search_params u) with
  | Some nv => Some (snd nv)
  | None => None
  end.

End Url.

(** ** The ID extractor ([extractVideoId]) *)

(** The body of the [try] block, once [new URL(urlOrId)] has returned. *)
Definition id_of_url (url : Url.URL) : option string :=
  if String.eqb (Url.hostname url) "youtu.be" then
    Some (substring_from 1 (Url.pathname url))
  else if String.eqb (Url.hostname url) "www.youtube.com"
          || String.eqb (Url.hostname url) "youtube.com" then
    if String.eqb (Url.pathname url) "/watch" then
      Url.searchParams_get url "v"
    else if startsWith (Url.pathname url) "/embed/" then
      Some (substring_from (String.length "/embed/") (Url.pathname url))
    else if startsWith (Url.pathname url) "/shorts/" then
      Some (substring_from (String.length "/shorts/") (Url.pathname url))
    else None
  else None.

Definition extractVideoId (urlOrId : string) : option string :=
  if negb (truthy urlOrId) then None
  else if Nat.eqb (String.length urlOrId) 11
          && negb (includes urlOrId "/") && negb (includes urlOrId "?")
  then Some urlOrId
  else
    match Url.parse urlOrId with
    | Some url => id_of_url url
    | None => None
    end.

(** ** Exceptions and the outside world *)

Record Error : Type := mkError {
  is_SyntaxError : bool;
  message : string
}.

Inductive Exc (A : Type) : Type :=
| Ok (a : A)
| Throw (e : Error).
Arguments Ok {A} a.
Arguments Throw {A} e.

Definition bind {A B} (m : Exc A) (k : A -> Exc B) : Exc B :=
  match m with
  | Ok a => k a
  | Throw e => Throw e
  end.

(** [try { m } catch (e) { h e }] *)
Definition try_catch {A} (m : Exc A) (h : Error -> Exc A) : Exc A :=
  match m with
  | Ok a => Ok a
  | Throw e => h e
  end.

Notation "x <- m ;; k" := (bind m (fun x => k))
  (at level 61, m at next level, right associativity).

(** What [youtube.getInfo(videoId)] gives: the title under [basic_info]
    and the outcome of [info.getTranscript()], the segments under
    [transcript.content.body.initial_segments] ([None] when a level of
    that path is missing). *)
Record VideoInfo : Type := mkInfo {
  basic_info_title : option string;
  getTranscript : Exc (option (list AnySegment))
}.

(** [Innertube.create()] followed by [getInfo]. *)
Definition Innertube : Type := string -> Exc VideoInfo.

(** A cue of the parsed subtitle track. *)
Record Cue : Type := mkVttCue {
  vtt_text : string;
  vtt_start : number;
  vtt_end : number
}.

(** What the fallback meets outside: the random suffix, the outcome of
    the yt-dlp command, the listing of the scratch directory after it,
    and the outcome of reading and parsing a file of that directory
    ([parsed.cues], [None] when there is none). *)
Record YtDlp : Type := mkYtDlp {
  uniqueId : string;
  execPromise : Exc unit;
  readdirSync : list string;
  parse_vtt : string -> Exc (option (list Cue))
}.

(** ** The fallback fetcher ([fetchTranscriptWithYtDlp]) *)

Definition segment_of_vtt_cue (cue : Cue) : TranscriptSegment :=
  {| text := vtt_text cue;
     offset := vtt_start cue;
     duration := num_sub (vtt_end cue) (vtt_start cue) |}.

Definition fetchTranscriptWithYtDlp (videoId : string) (w : YtDlp)
  : Exc (list TranscriptSegment) :=
  _ <- try_catch (execPromise w) (fun error => Throw error) ;;
  match find (fun f => startsWith f (videoId ++ "_" ++ uniqueId w) && endsWith f ".vtt")
             (readdirSync w) with
  | None => Throw (mkError false "No transcript found (yt-dlp)")
  | Some vttFile =>
      parsed <- parse_vtt w vttFile ;;
      match parsed with
      | Some cues => Ok (map segment_of_vtt_cue cues)
      | None => Ok []
      end
  end.

(** ** Responses *)

Record Body : Type := mkBody {
  error : option string;
  videoId : option string;
  videoTitle : option string;
  transcript : option (list TranscriptSegment)
}.

Record Response : Type := mkResponse {
  status : nat;
  body : Body
}.

Definition error_body (msg : string) : Body :=
  {| error := Some msg; videoId := None; videoTitle := None; transcript := None |}.

Definition missing_input : Response :=
  {| status := 400;
     body := error_body "Video ID or URL is required (query param: 'id')" |}.

Definition invalid_format : Response :=
  {| status := 400; body := error_body "Invalid YouTube Video ID or URL format" |}.

(** [res.status(404).json({ videoTitle, error: ... })] *)
Definition no_transcript (title : string) : Response :=
  {| status := 404;
     body := {| error := Some "No transcript available for this video.";
                videoId := None; videoTitle := Some title; transcript := None |} |}.

(** [res.json({ videoTitle: decodeHtmlEntities(videoTitle), transcript })] *)
Definition success (title : string) (t : list TranscriptSegment) : Response :=
  {| status := 200;
     body := {| error := None; videoId := None;
                videoTitle := Some (decodeHtmlEntities (Some title));
                transcript := Some t |} |}.

(** [res.status(statusCode).json({ error: errorMessage, videoId })] *)
Definition failure (statusCode : nat) (errorMessage id : string) : Response :=
  {| status := statusCode;
     body := {| error := Some errorMessage; videoId := Some id;
                videoTitle := None; transcript := None |} |}.

(** [title || 'Untitled Video'] *)
Definition title_or_default (title : option string) : string :=
  match truthy_string title with
  | Some t => t
  | None => "Untitled Video"
  end.

Definition is_empty {A} (l : list A) : bool := Nat.eqb (List.length l) 0.

(** ** The request handler of [index.ts] *)

(** The inner [try] around the primary fetch: the two variables it may
    assign, [videoTitle] and [formattedTranscript], as they stand when
    the block is left, by its end or by an exception. *)
Definition primary_attempt (id : string) (youtube : Innertube)
  : string * list TranscriptSegment :=
  match youtube id with
  | Throw _ => ("Untitled Video", [])
  | Ok info =>
      let title := title_or_default (basic_info_title info) in
      match getTranscript info with
      | Throw _ => (title, [])
      | Ok None => (title, [])
      | Ok (Some segments) => (title, formatSegments segments)
      end
  end.

(** The body of the outer [try]. *)
Definition fetch_and_respond (id : string) (youtube : Innertube) (w : YtDlp)
  : Exc Response :=
  let (title, formattedTranscript) := primary_attempt id youtube in
  formattedTranscript <-
    (if is_empty formattedTranscript then
       try_catch (fetchTranscriptWithYtDlp id w)
                 (fun _ => Throw (mkError false "Failed to fetch transcript from both sources."))
     else Ok formattedTranscript) ;;
  if is_empty formattedTranscript then Ok (no_transcript title)
  else Ok (success title formattedTranscript).

(** The outer [catch]. *)
Definition on_error (id : string) (err : Error) : Response :=
  if includes (message err) "No transcript found"
  then failure 404 "Transcripts are not available for this video." id
  else failure 500 "Failed to fetch transcript." id.

(** [app.get('/', ...)]: [query_id] is [req.query.id]. *)
Definition handler (query_id : option string) (youtube : Innertube) (w : YtDlp)
  : Response :=
  match truthy_string query_id with
  | None => missing_input
  | Some videoUrlOrId =>
      match truthy_string (extractVideoId videoUrlOrId) with
      | None => invalid_format
      | Some id =>
          match fetch_and_respond id youtube w with
          | Ok response => response
          | Throw err => on_error id err
          end
      end
  end.

(** ** The request handler of the primary-only variant *)

Module PrimaryOnlyHandler.

Definition fetch_and_respond (id : string) (youtube : Innertube) : Exc Response :=
  info <- youtube id ;;
  let title := title_or_default (basic_info_title info) in
  transcriptData <- getTranscript info ;;
  match transcriptData with
  | None => Ok (no_transcript title)
  | Some segments => Ok (success title (PrimaryOnly.formatSegments segments))
  end.

Definition on_error (id : string) (err : Error) : Response :=
  if is_SyntaxError err && includes (message err) "JSON" then
    failure 500 "Failed to process data from YouTube. The API response may be malformed or incomplete." id
  else if includes (message err) "private" || includes (message err) "unavailable"
          || includes (message err) "premiere" || includes (message err) "live" then
    failure 403 "Video is private, unavailable, a live stream, or a premiere without a processed transcript." id
  else if includes (message err) " অঞ্চলের কারণে" || includes (message err) "region-locked" then
    failure 451 "The video is region-locked and unavailable." id
  else if includes (message err) "Transcripts are not available for this video" then
    failure 404 "Transcripts are not available for this video." id
  else failure 500 "Failed to fetch transcript." id.

Definition handler (query_id : option string) (youtube : Innertube) : Response :=
  match truthy_string query_id with
  | None => missing_input
  | Some videoUrlOrId =>
      match truthy_string (extractVideoId videoUrlOrId) with
      | None => invalid_format
      | Some id =>
          match fetch_and_respond id youtube with
          | Ok response => response
          | Throw err => on_error id err
          end
      end
  end.

End PrimaryOnlyHandler.

(** ** Specification-side definitions and sample inputs *)

(** A generic segment: no renderer and no cue to unwrap. *)
Definition is_generic (segment : AnySegment) : Prop :=
  transcript_segment_renderer segment = None /\ first_cue segment = None.

(** A raw ms field as a number, a missing (or empty) one being [0]. *)
Definition ms_or_zero (field : option string) : number :=
  match truthy_string field with
  | Some s => parseFloat s
  | None => zero
  end.

(** The timing of a generic segment as the specification words it. *)
Definition generic_offset_spec (segment : AnySegment) : number :=
  match truthy_string (seg_start_ms segment) with
  | Some s => num_div (parseFloat s) 1000
  | None => zero
  end.

Definition generic_duration_spec (segment : AnySegment) : number :=
  match truthy_string (seg_duration_ms segment) with
  | Some d => num_div (parseFloat d) 1000
  | None =>
      match truthy_string (seg_start_ms segment), truthy_string (seg_end_ms segment) with
      | Some s, Some e => num_div (num_sub (parseFloat e) (parseFloat s)) 1000
      | _, _ => zero
      end
  end.

(** The generic segment [{ text: "Hi", duration_ms: "1500" }]. *)
Definition segment_with_duration_ms : AnySegment :=
  {| transcript_segment_renderer := None;
     cue_group_renderer := None;
     seg_text := Some (TextString "Hi");
     seg_runs := None;
     seg_snippet := None;
     seg_start_ms := None;
     seg_end_ms := None;
     seg_duration_ms := Some "1500" |}.

(** The text of a renderer in the order the specification gives:
    [snippet.text], [snippet.runs] joined, [text], [runs] joined. *)
Definition renderer_text_spec (tsr : TranscriptSegmentRenderer) : string :=
  match
    orelse (match tsr_snippet tsr with
            | Some sn => truthy_string (snippet_text sn)
            | None => None
            end)
   (orelse (match tsr_snippet tsr with
            | Some sn => option_map runs_joined (snippet_runs sn)
            | None => None
            end)
   (orelse (truthy_string (tsr_text tsr))
           (option_map runs_joined (tsr_runs tsr))))
  with
  | Some s => s
  | None => ""
  end.


(** The renderer [{ snippet: { runs: [{ text: "R" }] }, text: "T" }]. *)
Definition renderer_runs_and_text : TranscriptSegmentRenderer :=
  {| tsr_snippet := Some {| snippet_text := None;
                            snippet_runs := Some [ {| run_text := "R" |} ] |};
     tsr_text := Some "T";
     tsr_runs := None;
     tsr_start_ms := None;
     tsr_end_ms := None |}.

(** The segment [{ transcript_segment_renderer: tsr }]. *)
Definition wrap_renderer (tsr : TranscriptSegmentRenderer) : AnySegment :=
  {| transcript_segment_renderer := Some tsr;
     cue_group_renderer := None;
     seg_text := None; seg_runs := None; seg_snippet := None;
     seg_start_ms := None; seg_end_ms := None; seg_duration_ms := None |}.

(** The renderer of the specification's example:
    [{ snippet: { text: "Hi" }, start_ms: "1000", end_ms: "2500" }]. *)
Definition renderer_hi : TranscriptSegmentRenderer :=
  {| tsr_snippet := Some {| snippet_text := Some "Hi"; snippet_runs := None |};
     tsr_text := None;
     tsr_runs := None;
     tsr_start_ms := Some "1000";
     tsr_end_ms := Some "2500" |}.

(** The transcript the primary fetch leaves in [formattedTranscript]. *)
Definition primary_transcript (id : string) (youtube : Innertube)
  : list TranscriptSegment :=
  snd (primary_attempt id youtube).

Definition primary_title (id : string) (youtube : Innertube) : string :=
  fst (primary_attempt id youtube).


(** A renderer whose ms fields are too large for a double:
    [{ snippet: { text: "Hi" }, start_ms: "1e400", end_ms: "1e400" }]. *)
Definition renderer_overflowing : TranscriptSegmentRenderer :=
  {| tsr_snippet := Some {| snippet_text := Some "Hi"; snippet_runs := None |};
     tsr_text := None;
     tsr_runs := None;
     tsr_start_ms := Some "1e400";
     tsr_end_ms := Some "1e400" |}.


(** A metadata client that answers with the given title and segments. *)
Definition youtube_with (title : string) (segments : list AnySegment) : Innertube :=
  fun _ => Ok {| basic_info_title := Some title;
                 getTranscript := Ok (Some segments) |}.

(** A metadata client that is out of reach. *)
Definition youtube_down : Innertube :=
  fun _ => Throw (mkError false "fetch failed").

(** A yt-dlp whose command fails. *)
Definition ytdlp_failing : YtDlp :=
  {| uniqueId := "k3x9qf";
     execPromise := Throw (mkError false "Command failed: yt-dlp");
     readdirSync := [];
     parse_vtt := fun _ => Ok None |}.

(** A yt-dlp that runs and leaves no subtitle file. *)
Definition ytdlp_no_file : YtDlp :=
  {| uniqueId := "k3x9qf";
     execPromise := Ok tt;
     readdirSync := [];
     parse_vtt := fun _ => Ok None |}.

(** A yt-dlp whose subtitle file parses to the given cues. *)
Definition ytdlp_with (cues : option (list Cue)) : YtDlp :=
  {| uniqueId := "k3x9qf";
     execPromise := Ok tt;
     readdirSync := ["other.txt"; "dQw4w9WgXcQ_k3x9qf.en.vtt"];
     parse_vtt := fun _ => Ok cues |}.

(** What the extractor takes from a parsed URL. *)
Definition taken_from_url (url : Url.URL) (id : string) : Prop :=
  (Url.hostname url = "youtu.be" /\
   id = substring_from 1 (Url.pathname url)) \/
  ((Url.hostname url = "www.youtube.com" \/ Url.hostname url = "youtube.com") /\
   ((Url.pathname url = "/watch" /\ Url.searchParams_get url "v" = Some id) \/
    (startsWith (Url.pathname url) "/embed/" = true /\
     id = substring_from 7 (Url.pathname url)) \/
    (startsWith (Url.pathname url) "/shorts/" = true /\
     id = substring_from 8 (Url.pathname url)))).

(** The characters of a video ID: letters, digits, [-] and [_]. *)
Definition id_char (c : ascii) : bool :=
  Url.is_alpha c || Url.is_digit c || Url.one_of "-_" c.

Definition id_chars (s : string) : Prop :=
  forallb id_char (list_ascii_of_string s) = true.

Definition id_list (l : list ascii) : Prop :=
  forall c, In c l -> id_char c = true.

(** A canonical video ID: 11 characters of that alphabet. *)
Definition is_video_id (s : string) : Prop :=
  String.length s = 11 /\ id_chars s.

Ltac by_char c :=
  let H := fresh in
  intros H; destruct c as [[] [] [] [] [] [] [] []];
  vm_compute in H |- *; congruence.

(** ** Definitions for the further properties *)

(** The text of a cue: [text.text], then [text.runs] joined. *)
Definition cue_text_of (cue : Cue_renderer) : string :=
  match cue_text cue with
  | Some sn =>
      match truthy_string (snippet_text sn) with
      | Some s => s
      | None =>
          match snippet_runs sn with
          | Some runs => runs_joined runs
          | None => ""
          end
      end
  | None => ""
  end.

(** The argument the [map] callback gives to [decodeHtmlEntities]. *)
Definition raw_text (segment : AnySegment) : string :=
  match transcript_segment_renderer segment with
  | Some tsr => extractTextFromSegment (segment_of_tsr tsr)
  | None =>
      match first_cue segment with
      | Some cue => extractTextFromSegment (segment_of_cue cue)
      | None => extractTextFromSegment segment
      end
  end.

(** The test [fetchTranscriptWithYtDlp] applies to a file name. *)
Definition is_subtitle_of (id : string) (w : YtDlp) (f : string) : bool :=
  startsWith f (id ++ "_" ++ uniqueId w) && endsWith f ".vtt".

(** The error messages [index.ts] sends. *)
Definition curated_messages : list string :=
  [ "Video ID or URL is required (query param: 'id')";
    "Invalid YouTube Video ID or URL format";
    "No transcript available for this video.";
    "Failed to fetch transcript." ].

(** The error messages the primary-only variant sends. *)
Definition curated_messages_primary_only : list string :=
  [ "Video ID or URL is required (query param: 'id')";
    "Invalid YouTube Video ID or URL format";
    "No transcript available for this video.";
    "Failed to process data from YouTube. The API response may be malformed or incomplete.";
    "Video is private, unavailable, a live stream, or a premiere without a processed transcript.";
    "The video is region-locked and unavailable.";
    "Transcripts are not available for this video.";
    "Failed to fetch transcript." ].

(** An error message with one of the words the primary-only variant
    takes for an inaccessible video. *)
Definition mentions_inaccessible (msg : string) : bool :=
  includes msg "private" || includes msg "unavailable"
  || includes msg "premiere" || includes msg "live".

(** The video ID a request asks for, when it passes validation. *)
Definition requested_id (q : option string) : option string :=
  match truthy_string q with
  | Some videoUrlOrId => truthy_string (extractVideoId videoUrlOrId)
  | None => None
  end.

(** The segment [{ cue_group_renderer: { cues: [{ cue_renderer: { text:
    { runs: [{ text: "Tom " }, { text: "&amp; Jerry" }] },
    start_offset_ms: "500", duration_ms: "1250" } }] } }]. *)
Definition cue_tom_and_jerry : Cue_renderer :=
  {| cue_text := Some {| snippet_text := None;
                         snippet_runs := Some [ {| run_text := "Tom " |};
                                                {| run_text := "&amp; Jerry" |} ] |};
     cue_start_offset_ms := Some "500";
     cue_duration_ms := Some "1250" |}.

Definition wrap_cue (cue : Cue_renderer) : AnySegment :=
  {| transcript_segment_renderer := None;
     cue_group_renderer := Some {| cues := Some [ {| cue_renderer := Some cue |} ] |};
     seg_text := None; seg_runs := None; seg_snippet := None;
     seg_start_ms := None; seg_end_ms := None; seg_duration_ms := None |}.

(** Two cues of a subtitle track. *)
Definition sample_cues : list Cue :=
  [ {| vtt_text := "Hello"; vtt_start := Fin 0; vtt_end := Fin (3 # 2) |};
    {| vtt_text := "world"; vtt_start := Fin (3 # 2); vtt_end := Fin 4 |} ].

(** A metadata client that finds the video and no transcript path. *)
Definition youtube_without_transcript (title : option string) : Innertube :=
  fun _ => Ok {| basic_info_title := title; getTranscript := Ok None |}.

(** The object the [map] callback hands to [extractTextFromSegment]: the
    unwrapped renderer, the unwrapped first cue, or the segment itself. *)
Definition extract_argument (segment : AnySegment) : AnySegment :=
  match transcript_segment_renderer segment with
  | Some tsr => segment_of_tsr tsr
  | None =>
      match first_cue segment with
      | Some cue => segment_of_cue cue
      | None => segment
      end
  end.

(** The text of an object by its own fields: [text] as a string, [text]
    as an object ([.text], then [.runs] joined), [runs] joined,
    [snippet.text], [snippet.runs] joined. *)
Definition own_fields_text (o : AnySegment) : string :=
  let from_snippet_field :=
    match seg_snippet o with
    | Some sn =>
        match truthy_string (snippet_text sn) with
        | Some s => s
        | None =>
            match snippet_runs sn with
            | Some runs => runs_joined runs
            | None => ""
            end
        end
    | None => ""
    end in
  let from_runs_on :=
    match seg_runs o with
    | Some runs => runs_joined runs
    | None => from_snippet_field
    end in
  match seg_text o with
  | Some (TextString s) => if truthy s then s else from_runs_on
  | Some (TextObject sn) =>
      match truthy_string (snippet_text sn) with
      | Some s => s
      | None =>
          match snippet_runs sn with
          | Some runs => runs_joined runs
          | None => from_runs_on
          end
      end
  | None => from_runs_on
  end.

(** * Properties *)

(** ** Checks of the platform models *)

Example parseFloat_int : parseFloat "1000" = Fin (1000 # 1)%Q.
Proof. reflexivity. Qed.
Example parseFloat_frac : parseFloat " -12.50e1px" = Fin (-125 # 1)%Q.
Proof. reflexivity. Qed.
Example parseFloat_small : parseFloat ".5" = Fin (1 # 2)%Q.
Proof. reflexivity. Qed.
Example parseFloat_dot : parseFloat "." = NaN.
Proof. reflexivity. Qed.
Example parseFloat_word : parseFloat "abc" = NaN.
Proof. reflexivity. Qed.
Example parseFloat_empty : parseFloat "" = NaN.
Proof. reflexivity. Qed.
Example parseFloat_e : parseFloat "5.e3x" = Fin (5000 # 1)%Q.
Proof. reflexivity. Qed.
Example parseFloat_e_alone : parseFloat "7e" = Fin (7 # 1)%Q.
Proof. reflexivity. Qed.
Example parseFloat_neg_e : parseFloat "25e-1" = Fin (5 # 2)%Q.
Proof. reflexivity. Qed.
Example parseFloat_tenth :
  parseFloat "0.1" = Fin (3602879701896397 # 36028797018963968)%Q.
Proof. reflexivity. Qed.
Example parseFloat_tie : parseFloat "9007199254740993" = Fin (9007199254740992 # 1)%Q.
Proof. reflexivity. Qed.
Example parseFloat_overflow :
  parseFloat "1e400" = PosInf /\ parseFloat "-1e400" = NegInf /\
  parseFloat "1.7976931348623159e308" = PosInf.
Proof. repeat split. Qed.
Example parseFloat_underflow :
  parseFloat "1e-400" = Fin 0 /\ parseFloat "5e-324" = Fin (1 # 2 ^ 1074)%Q.
Proof. split; reflexivity. Qed.
Example subtraction_rounds :
  num_sub (parseFloat "0.3") (parseFloat "0.1") = parseFloat "0.19999999999999998".
Proof. reflexivity. Qed.
Example overflowing_renderer_normalized :
  normalizeSegment (wrap_renderer renderer_overflowing)
  = {| text := "Hi"; offset := PosInf; duration := NaN |}.
Proof. reflexivity. Qed.

Example url_youtu_be :
  option_map (fun u => (Url.hostname u, Url.pathname u)) (Url.parse "https://youtu.be/abc?t=1#x")
  = Some ("youtu.be", "/abc").
Proof. reflexivity. Qed.
Example url_watch :
  option_map (fun u => (Url.hostname u, Url.pathname u, Url.searchParams_get u "v"))
             (Url.parse " HTTPS:\\WWW.YouTube.com:443/a/../watch?x=1&v=a+b%41#v=c")
  = Some ("www.youtube.com", "/watch", Some "a bA").
Proof. reflexivity. Qed.
Example url_bare_host :
  option_map (fun u => (Url.hostname u, Url.pathname u)) (Url.parse "https://youtu.be")
  = Some ("youtu.be", "/").
Proof. reflexivity. Qed.
Example url_no_scheme : Url.parse "youtu.be/abc" = None.
Proof. reflexivity. Qed.
Example url_no_host : Url.parse "https://" = None.
Proof. reflexivity. Qed.
Example url_bad_port : Url.parse "https://youtu.be:99999/abc" = None.
Proof. reflexivity. Qed.
Example url_opaque :
  option_map (fun u => (Url.hostname u, Url.pathname u)) (Url.parse "mailto:a@b.c")
  = Some ("", "a@b.c").
Proof. reflexivity. Qed.
Example url_file :
  option_map (fun u => (Url.hostname u, Url.pathname u)) (Url.parse "file:///C|/x/../../y")
  = Some ("", "/C:/y").
Proof. reflexivity. Qed.
Example url_encoded_path :
  option_map (fun u => (Url.hostname u, Url.pathname u)) (Url.parse "https://user:pw@youtu%2Ebe/a b/./c/")
  = Some ("youtu.be", "/a%20b/c/").
Proof. reflexivity. Qed.

(** ** The entity decoder *)

Section Replace.

Variables pat rep : string.

Lemma includes_cons (c : ascii) (s : string) :
  includes (String c s) pat = false ->
  prefix pat (String c s) = false /\ includes s pat = false.
Proof.
  cbn [includes]. intros H. apply orb_false_iff in H. exact H.
Qed.

(** A pattern that does not occur leaves the string as it is. *)
Lemma replaceAll_absent (s : string) :
  includes s pat = false -> replaceAll pat rep s = s.
Proof.
  unfold replaceAll.
  induction s as [|c s IH]; intros H.
  - reflexivity.
  - apply includes_cons in H. destruct H as [Hp Hs].
    cbn [replace_go]. rewrite Hp. f_equal. apply IH, Hs.
Qed.

End Replace.

Lemma no_entities_decode (s : string) :
  no_entities s -> decodeHtmlEntities (Some s) = s.
Proof.
  unfold no_entities, entity_table. intros H.
  repeat match goal with
         | H : Forall _ (_ :: _) |- _ => inversion H; subst; clear H
         end.
  cbn [fst] in *.
  unfold decodeHtmlEntities.
  destruct (negb (truthy s)) eqn:E.
  - destruct s; [reflexivity | discriminate].
  - repeat match goal with
           | H : includes s ?p = false |- context [replaceAll ?p ?r s] =>
               rewrite (replaceAll_absent p r s H)
           end.
    reflexivity.
Qed.

(** C6: the decoder is the six replacements [&amp;], [&lt;], [&gt;],
    [&quot;], [&#39;], [&nbsp;] applied one after the other in that order,
    null and undefined give the empty string, and the sample sentence of
    the specification decodes as it says. *)
Theorem decodeHtmlEntities_is_sequential_replacement :
  (forall text, decodeHtmlEntities text = decode_spec text) /\
  map fst entity_table = ["&amp;"; "&lt;"; "&gt;"; "&quot;"; "&#39;"; "&nbsp;"] /\
  decodeHtmlEntities
    (Some "A &amp; B &lt;tag&gt; &quot;q&quot; it&#39;s&nbsp;here")
  = "A & B <tag> " ++ dquote ++ "q" ++ dquote ++ " it's here" /\
  decodeHtmlEntities None = "".
Proof.
  split; [| split; [| split]]; try reflexivity.
  intros [t|]; [| reflexivity].
  destruct t as [|c t]; reflexivity.
Qed.

(** C7: a string with none of the six entity sequences in it is returned
    unchanged, so unrecognised entities pass through and decoding such a
    text again changes nothing. *)
Theorem decodeHtmlEntities_fixes_entity_free (s : string) :
  no_entities s ->
  decodeHtmlEntities (Some s) = s /\
  decodeHtmlEntities (Some (decodeHtmlEntities (Some s))) = decodeHtmlEntities (Some s).
Proof.
  intros H. pose proof (no_entities_decode s H) as E.
  split; [exact E |]. rewrite E. exact E.
Qed.

Lemma decodeHtmlEntities_fixes_entity_free_witness :
  no_entities "caf&eacute; &copy 2024 &#x27;" /\
  decodeHtmlEntities (Some "caf&eacute; &copy 2024 &#x27;") = "caf&eacute; &copy 2024 &#x27;" /\
  decodeHtmlEntities (Some (decodeHtmlEntities (Some "caf&eacute; &copy 2024 &#x27;")))
  = decodeHtmlEntities (Some "caf&eacute; &copy 2024 &#x27;").
Proof.
  assert (H : no_entities "caf&eacute; &copy 2024 &#x27;")
    by (repeat constructor).
  split; [exact H |].
  exact (decodeHtmlEntities_fixes_entity_free _ H).
Defined.

(** The output of the decoder may itself hold an entity: decoding is not
    idempotent on arbitrary input. *)
Example decode_twice_differs :
  decodeHtmlEntities (Some "&amp;amp;") = "&amp;" /\
  decodeHtmlEntities (Some (decodeHtmlEntities (Some "&amp;amp;"))) = "&".
Proof. split; reflexivity. Qed.

(** C10: [&amp;] is replaced first, so the [&lt;] it uncovers in
    [&amp;lt;] is replaced in the same call: the result is [<], not
    [&lt;]. *)
Theorem decodeHtmlEntities_double_escape :
  replaceAll "&amp;" "&" "&amp;lt;" = "&lt;" /\
  decodeHtmlEntities (Some "&amp;lt;") = "<" /\
  decodeHtmlEntities (Some "&amp;lt;") <> "&lt;".
Proof.
  split; [reflexivity | split; [reflexivity | discriminate]].
Qed.

(** ** Input validation *)

(** C9: a request with an empty [id] gets the missing-input response, with
    status 400 and the message about the required parameter, in both
    variants of the handler; it is not the invalid-format response. *)
Theorem empty_id_is_missing_input (youtube : Innertube) (w : YtDlp) :
  handler (Some "") youtube w = missing_input /\
  PrimaryOnlyHandler.handler (Some "") youtube = missing_input /\
  status missing_input = 400 /\
  error (body missing_input) = Some "Video ID or URL is required (query param: 'id')" /\
  missing_input <> invalid_format.
Proof.
  split; [reflexivity |]. split; [reflexivity |].
  split; [reflexivity |]. split; [reflexivity | discriminate].
Qed.

(** ** The segment normaliser *)

Lemma parseFloat_or_zero (field : option string) :
  parseFloat (or_zero field) = ms_or_zero field.
Proof.
  unfold or_zero, ms_or_zero. destruct (truthy_string field); reflexivity.
Qed.

(** The generic branch of the primary-only variant follows the
    specification. *)
Lemma PrimaryOnly_generic_timing (segment : AnySegment) :
  is_generic segment ->
  offset (PrimaryOnly.normalizeSegment segment) = generic_offset_spec segment /\
  duration (PrimaryOnly.normalizeSegment segment) = generic_duration_spec segment.
Proof.
  intros [Ht Hc]. unfold PrimaryOnly.normalizeSegment. rewrite Ht, Hc.
  cbn [offset duration]. split; [reflexivity |].
  unfold generic_duration_spec.
  destruct (truthy_string (seg_duration_ms segment)); [reflexivity |].
  destruct (truthy_string (seg_end_ms segment)),
           (truthy_string (seg_start_ms segment)); reflexivity.
Qed.

(** The generic branch of [index.ts] never reads [duration_ms]: the
    duration comes from [start_ms] and [end_ms] alone. *)
Lemma generic_duration_without_duration_ms (segment : AnySegment) :
  is_generic segment ->
  duration (normalizeSegment segment) =
  match truthy_string (seg_start_ms segment), truthy_string (seg_end_ms segment) with
  | Some s, Some e => num_div (num_sub (parseFloat e) (parseFloat s)) 1000
  | _, _ => zero
  end.
Proof.
  intros [Ht Hc]. unfold normalizeSegment. rewrite Ht, Hc. cbn [duration].
  destruct (truthy_string (seg_end_ms segment)),
           (truthy_string (seg_start_ms segment)); reflexivity.
Qed.

(** C2: on the generic segment [{ text: "Hi", duration_ms: "1500" }] the
    handler of [index.ts] gives the duration [0], where the specification
    and the primary-only variant give [1.5]. *)
Theorem generic_duration_ms_ignored :
  is_generic segment_with_duration_ms /\
  normalizeSegment segment_with_duration_ms
  = {| text := "Hi"; offset := zero; duration := zero |} /\
  generic_duration_spec segment_with_duration_ms = Fin (3 # 2) /\
  PrimaryOnly.normalizeSegment segment_with_duration_ms
  = {| text := "Hi"; offset := zero; duration := Fin (3 # 2) |}.
Proof.
  repeat split.
Qed.



Example renderer_runs_and_text_normalized :
  renderer_text_spec renderer_runs_and_text = "R" /\
  text (normalizeSegment (wrap_renderer renderer_runs_and_text)) = "T".
Proof. split; reflexivity. Qed.



Example renderer_hi_normalized :
  normalizeSegment (wrap_renderer renderer_hi)
  = {| text := "Hi"; offset := Fin 1; duration := Fin (3 # 2) |}.
Proof. reflexivity. Qed.

(** ** Emitted segments *)

Lemma truthy_string_Some (o : option string) (s : string) :
  truthy_string o = Some s -> o = Some s /\ s <> "".
Proof.
  destruct o as [t|]; cbn; [| discriminate].
  destruct t; cbn; [discriminate |].
  intros E; injection E as <-. split; [reflexivity | discriminate].
Qed.

(** Past validation the handler is the [try] block with its [catch]. *)
Lemma handler_valid_id (s id : string) (youtube : Innertube) (w : YtDlp) :
  truthy_string (extractVideoId s) = Some id ->
  handler (Some s) youtube w =
  match fetch_and_respond id youtube w with
  | Ok response => response
  | Throw err => on_error id err
  end.
Proof.
  intros H. unfold handler.
  destruct s as [|c s]; [discriminate H |].
  cbn [truthy_string truthy]. rewrite H. reflexivity.
Qed.
















(** ** The fallback and the 404 response *)

(** The fallback fetcher hands its exceptions on. *)
Example fallback_propagates :
  fetchTranscriptWithYtDlp "dQw4w9WgXcQ" ytdlp_failing
  = Throw (mkError false "Command failed: yt-dlp") /\
  fetchTranscriptWithYtDlp "dQw4w9WgXcQ" ytdlp_no_file
  = Throw (mkError false "No transcript found (yt-dlp)").
Proof. split; reflexivity. Qed.

(** C1 as it is stated fails when the yt-dlp command fails after the
    primary fetch gave nothing: the response has status 500. *)
Lemma fallback_404_counterexample :
  ~ (forall s id youtube w,
        truthy_string (extractVideoId s) = Some id ->
        primary_transcript id youtube = [] ->
        (fetchTranscriptWithYtDlp id w = Ok [] \/
         exists e, fetchTranscriptWithYtDlp id w = Throw e) ->
        status (handler (Some s) youtube w) = 404 /\
        videoId (body (handler (Some s) youtube w)) = Some id /\
        (error (body (handler (Some s) youtube w))
         = Some "No transcript available for this video." \/
         error (body (handler (Some s) youtube w))
         = Some "Transcripts are not available for this video.")).
Proof.
  intros H.
  destruct (H "dQw4w9WgXcQ" "dQw4w9WgXcQ" youtube_down ytdlp_failing
              eq_refl eq_refl
              (or_intror (ex_intro _ (mkError false "Command failed: yt-dlp") eq_refl)))
    as [Hs _].
  discriminate Hs.
Qed.

(** With zero segments from both sources the 404 body carries the title,
    not the video ID. *)
Example no_transcript_body :
  handler (Some "dQw4w9WgXcQ") youtube_down (ytdlp_with None)
  = {| status := 404;
       body := {| error := Some "No transcript available for this video.";
                  videoId := None;
                  videoTitle := Some "Untitled Video";
                  transcript := None |} |}.
Proof. reflexivity. Qed.

(** The message the outer [catch] looks for never reaches it: a missing
    subtitle file is answered with status 500 as well. *)
Example no_file_is_500 :
  handler (Some "dQw4w9WgXcQ") youtube_down ytdlp_no_file
  = failure 500 "Failed to fetch transcript." "dQw4w9WgXcQ".
Proof. reflexivity. Qed.

Lemma fallback_throw_is_500 (id : string) (youtube : Innertube) (w : YtDlp) (e : Error) :
  primary_transcript id youtube = [] ->
  fetchTranscriptWithYtDlp id w = Throw e ->
  fetch_and_respond id youtube w
  = Throw (mkError false "Failed to fetch transcript from both sources.").
Proof.
  unfold primary_transcript, fetch_and_respond.
  destruct (primary_attempt id youtube) as [title t]. cbn [snd].
  intros -> Hf. cbn [is_empty List.length Nat.eqb]. rewrite Hf. reflexivity.
Qed.

(** Whatever the two sources do, the [try] block ends in a response
    without a video ID or in the one exception the handler makes itself. *)
Lemma fetch_and_respond_outcomes (id : string) (youtube : Innertube) (w : YtDlp) :
  (exists response,
      fetch_and_respond id youtube w = Ok response /\
      videoId (body response) = None) \/
  fetch_and_respond id youtube w
  = Throw (mkError false "Failed to fetch transcript from both sources.").
Proof.
  unfold fetch_and_respond.
  destruct (primary_attempt id youtube) as [title t].
  destruct (is_empty t) eqn:Et.
  - destruct (fetchTranscriptWithYtDlp id w) as [t'|e]; cbn [try_catch bind].
    + left. destruct (is_empty t'); eexists; split; reflexivity.
    + right. reflexivity.
  - left. cbn [bind]. rewrite Et. eexists; split; reflexivity.
Qed.

(** So a response that carries the video ID has status 500: the 404 branch
    of the outer [catch] is never taken. *)
Lemma videoId_only_with_500 (q : option string) (youtube : Innertube) (w : YtDlp)
      (id : string) :
  videoId (body (handler q youtube w)) = Some id ->
  status (handler q youtube w) = 500.
Proof.
  unfold handler.
  destruct (truthy_string q) as [s|]; [| discriminate].
  destruct (truthy_string (extractVideoId s)) as [id'|]; [| discriminate].
  destruct (fetch_and_respond_outcomes id' youtube w) as [[r [-> Hr]] | ->].
  - rewrite Hr. discriminate.
  - intros _. reflexivity.
Qed.

(** C1, amended: after a primary fetch that gave nothing (its exceptions
    are caught and count as nothing), a fallback that returns zero
    segments is answered with status 404, the message "No transcript
    available for this video." and the title, without the video ID; a
    fallback whose command or whose parser throws hands the exception on
    and is answered with status 500, the message "Failed to fetch
    transcript." and the video ID. *)
Theorem fallback_outcomes (s id : string) (youtube : Innertube) (w : YtDlp) :
  truthy_string (extractVideoId s) = Some id ->
  primary_transcript id youtube = [] ->
  (fetchTranscriptWithYtDlp id w = Ok [] ->
   status (handler (Some s) youtube w) = 404 /\
   error (body (handler (Some s) youtube w))
   = Some "No transcript available for this video." /\
   videoTitle (body (handler (Some s) youtube w)) = Some (primary_title id youtube) /\
   videoId (body (handler (Some s) youtube w)) = None) /\
  (forall e,
      execPromise w = Throw e \/
      (exists f, execPromise w = Ok tt /\
                 find (fun f => startsWith f (id ++ "_" ++ uniqueId w) && endsWith f ".vtt")
                      (readdirSync w) = Some f /\
                 parse_vtt w f = Throw e) ->
      fetchTranscriptWithYtDlp id w = Throw e /\
      handler (Some s) youtube w = failure 500 "Failed to fetch transcript." id) /\
  (forall e, youtube id = Throw e -> primary_attempt id youtube = ("Untitled Video", [])) /\
  (forall info e,
      youtube id = Ok info -> getTranscript info = Throw e ->
      primary_attempt id youtube = (title_or_default (basic_info_title info), [])).
Proof.
  intros Hid Hp.
  rewrite (handler_valid_id s id youtube w Hid).
  split; [| split; [| split]].
  - intros Hf. unfold fetch_and_respond, primary_title.
    unfold primary_transcript in Hp.
    destruct (primary_attempt id youtube) as [title t]. cbn [fst snd] in *.
    subst t. cbn [is_empty List.length Nat.eqb]. rewrite Hf.
    cbn. repeat split.
  - intros e He.
    assert (Hf : fetchTranscriptWithYtDlp id w = Throw e).
    { unfold fetchTranscriptWithYtDlp.
      destruct He as [He | [f [He [Hfind Hparse]]]]; rewrite He;
        cbn [try_catch bind].
      - reflexivity.
      - rewrite Hfind, Hparse. reflexivity. }
    split; [exact Hf |].
    rewrite (fallback_throw_is_500 id youtube w e Hp Hf). reflexivity.
  - intros e He. unfold primary_attempt. rewrite He. reflexivity.
  - intros info e Hi He. unfold primary_attempt. rewrite Hi, He. reflexivity.
Qed.

Lemma fallback_outcomes_witness :
  truthy_string (extractVideoId "https://youtu.be/dQw4w9WgXcQ") = Some "dQw4w9WgXcQ" /\
  primary_transcript "dQw4w9WgXcQ" youtube_down = [] /\
  fetchTranscriptWithYtDlp "dQw4w9WgXcQ" (ytdlp_with (Some [])) = Ok [] /\
  status (handler (Some "https://youtu.be/dQw4w9WgXcQ") youtube_down (ytdlp_with (Some [])))
  = 404.
Proof.
  split; [reflexivity |]. split; [reflexivity |]. split; [reflexivity |].
  apply (fallback_outcomes "https://youtu.be/dQw4w9WgXcQ" "dQw4w9WgXcQ"
           youtube_down (ytdlp_with (Some [])));
    reflexivity.
Defined.

(** ** The ID extractor *)

(** C5 as it is stated fails on a short-link URL with a short path: the
    extractor succeeds with a value of three characters. *)
Lemma extractVideoId_length_counterexample :
  ~ (forall s id, extractVideoId s = Some id -> String.length id = 11).
Proof.
  intros H. specialize (H "https://youtu.be/abc" "abc" eq_refl). discriminate H.
Qed.

Lemma id_of_url_result (url : Url.URL) (id : string) :
  id_of_url url = Some id -> taken_from_url url id.
Proof.
  unfold id_of_url, taken_from_url.
  destruct (String.eqb (Url.hostname url) "youtu.be") eqn:Hh1.
  { intros E; injection E as <-. left.
    split; [apply String.eqb_eq, Hh1 | reflexivity]. }
  destruct (String.eqb (Url.hostname url) "www.youtube.com"
            || String.eqb (Url.hostname url) "youtube.com") eqn:Hh2;
    [| discriminate].
  intros H. right. split.
  { apply orb_true_iff in Hh2.
    destruct Hh2 as [E|E]; [left | right]; apply String.eqb_eq, E. }
  revert H.
  destruct (String.eqb (Url.pathname url) "/watch") eqn:Hw.
  { intros H. left. split; [apply String.eqb_eq, Hw | exact H]. }
  destruct (startsWith (Url.pathname url) "/embed/") eqn:He.
  { intros E; injection E as <-. right; left. split; reflexivity. }
  destruct (startsWith (Url.pathname url) "/shorts/") eqn:Hs; [| discriminate].
  intros E; injection E as <-. right; right. split; reflexivity.
Qed.

(** C5, amended: a value the extractor returns is either the input
    itself, which then has 11 characters and neither [/] nor [?], or a
    part of the parsed URL, of whatever length: the path after its first
    character for the host [youtu.be]; for the hosts [www.youtube.com] and
    [youtube.com] the [v] parameter of [/watch], or what follows
    [/embed/] or [/shorts/]. *)
Theorem extractVideoId_result (s id : string) :
  extractVideoId s = Some id ->
  (id = s /\ String.length id = 11 /\
   includes s "/" = false /\ includes s "?" = false) \/
  (exists url, Url.parse s = Some url /\ taken_from_url url id).
Proof.
  unfold extractVideoId.
  destruct (negb (truthy s)); [discriminate |].
  destruct (Nat.eqb (String.length s) 11 && negb (includes s "/")
            && negb (includes s "?")) eqn:Hbare.
  - intros E; injection E as <-. left.
    apply andb_true_iff in Hbare. destruct Hbare as [Hbare Hq].
    apply andb_true_iff in Hbare. destruct Hbare as [Hlen Hslash].
    apply Nat.eqb_eq in Hlen. apply negb_true_iff in Hq, Hslash.
    repeat split; assumption.
  - destruct (Url.parse s) as [url|]; [| discriminate].
    intros H. right. exists url. split; [reflexivity |].
    apply id_of_url_result, H.
Qed.

Lemma extractVideoId_result_witness :
  extractVideoId "https://youtu.be/abc" = Some "abc" /\
  ((("abc" = "https://youtu.be/abc" /\ String.length "abc" = 11 /\
     includes "https://youtu.be/abc" "/" = false /\
     includes "https://youtu.be/abc" "?" = false)) \/
   (exists url, Url.parse "https://youtu.be/abc" = Some url /\ taken_from_url url "abc")).
Proof.
  split; [reflexivity |].
  apply (extractVideoId_result "https://youtu.be/abc" "abc"). reflexivity.
Defined.

(** *** URLs that end in a video ID *)

Lemma id_char_not_space c : id_char c = true -> Url.is_c0_or_space c = false.
Proof. by_char c. Qed.
Lemma id_char_not_newline c : id_char c = true -> negb (Url.is_tab_or_newline c) = true.
Proof. by_char c. Qed.
Lemma id_char_not_separator c : id_char c = true -> Url.is_separator true c = false.
Proof. by_char c. Qed.
Lemma id_char_not_query_mark c : id_char c = true -> Url.one_of "?#" c = false.
Proof. by_char c. Qed.
Lemma id_char_not_hash c : id_char c = true -> Ascii.eqb "#" c = false.
Proof. by_char c. Qed.
Lemma id_char_not_amp c : id_char c = true -> Ascii.eqb "&" c = false.
Proof. by_char c. Qed.
Lemma id_char_not_percent c : id_char c = true -> Ascii.eqb c "%" = false.
Proof. by_char c. Qed.
Lemma id_char_not_plus c : id_char c = true -> Url.plus_to_space c = c.
Proof. by_char c. Qed.
Lemma id_char_path c : id_char c = true -> Url.path_set c = false.
Proof. by_char c. Qed.
Lemma id_char_query c : id_char c = true -> Url.special_query_set c = false.
Proof. by_char c. Qed.
Lemma id_char_lower_dot c : id_char c = true -> Ascii.eqb (Url.to_lower c) "." = false.
Proof. by_char c. Qed.
Lemma id_char_lower_percent c : id_char c = true -> Ascii.eqb (Url.to_lower c) "%" = false.
Proof. by_char c. Qed.

Section Untouched.

Variable p : ascii -> bool.
Variable l : list ascii.
Hypothesis none : forall c, In c l -> p c = false.

Lemma drop_while_none : Url.drop_while p l = l.
Proof using none.
  destruct l as [|c l']; [reflexivity |].
  cbn. rewrite (none c (or_introl eq_refl)). reflexivity.
Qed.

Lemma break_none : Url.break p l = (l, []).
Proof using none.
  induction l as [|c l' IH]; [reflexivity |].
  cbn. rewrite (none c (or_introl eq_refl)).
  rewrite IH; [reflexivity |]. intros c' Hc'. apply none. right. exact Hc'.
Qed.

Lemma split_on_none : Url.split_on p l = [l].
Proof using none.
  induction l as [|c l' IH]; [reflexivity |].
  cbn. rewrite (none c (or_introl eq_refl)).
  rewrite IH; [reflexivity |]. intros c' Hc'. apply none. right. exact Hc'.
Qed.

Lemma percent_encode_none : Url.percent_encode p l = l.
Proof using none.
  unfold Url.percent_encode.
  induction l as [|c l' IH]; [reflexivity |].
  cbn. rewrite (none c (or_introl eq_refl)). cbn. f_equal.
  apply IH. intros c' Hc'. apply none. right. exact Hc'.
Qed.

Lemma filter_none : filter (fun c => negb (p c)) l = l.
Proof using none.
  induction l as [|c l' IH]; [reflexivity |].
  cbn. rewrite (none c (or_introl eq_refl)). cbn. f_equal.
  apply IH. intros c' Hc'. apply none. right. exact Hc'.
Qed.

End Untouched.

Lemma percent_decode_none (l : list ascii) :
  (forall c, In c l -> Ascii.eqb c "%" = false) -> Url.percent_decode l = l.
Proof.
  induction l as [|c l' IH]; intros none; [reflexivity |].
  cbn [Url.percent_decode]. rewrite (none c (or_introl eq_refl)). f_equal.
  apply IH. intros c' Hc'. apply none. right. exact Hc'.
Qed.

Lemma list_ascii_of_string_app (a b : string) :
  list_ascii_of_string (a ++ b) = (list_ascii_of_string a ++ list_ascii_of_string b)%list.
Proof.
  induction a as [|c a IH]; [reflexivity |]. cbn. f_equal. exact IH.
Qed.

(** Input without C0 controls and spaces passes preprocessing as it is. *)
Lemma preprocess_clean (s : string) :
  (forall c, In c (list_ascii_of_string s) -> Url.is_c0_or_space c = false) ->
  Url.preprocess s = list_ascii_of_string s.
Proof.
  intros H. unfold Url.preprocess.
  rewrite (drop_while_none _ _ H).
  rewrite drop_while_none by (intros c Hc; apply H, in_rev, Hc).
  rewrite rev_involutive.
  apply filter_none. intros c Hc. specialize (H c Hc).
  destruct c as [[] [] [] [] [] [] [] []]; vm_compute in H |- *; congruence.
Qed.

Lemma id_chars_list (id : string) : id_chars id -> id_list (list_ascii_of_string id).
Proof. unfold id_chars, id_list. intros H c Hc. rewrite forallb_forall in H. apply H, Hc. Qed.

Lemma not_dot_segment (l : list ascii) :
  id_list l -> Url.is_single_dot l = false /\ Url.is_double_dot l = false.
Proof.
  intros H. destruct l as [|c l]; [split; reflexivity |].
  pose proof (id_char_lower_dot c (H c (or_introl eq_refl))) as Hdot.
  pose proof (id_char_lower_percent c (H c (or_introl eq_refl))) as Hpct.
  unfold Url.is_single_dot, Url.is_double_dot, Url.lower_string.
  cbn [map string_of_list_ascii existsb String.eqb].
  rewrite Hdot, Hpct. split; reflexivity.
Qed.

Lemma build_path_one (l : list ascii) :
  id_list l -> Url.build_path false [] [l] = [l].
Proof.
  intros H. cbn [Url.build_path].
  rewrite (percent_encode_none Url.path_set l) by (intros c Hc; apply id_char_path, H, Hc).
  destruct (not_dot_segment l H) as [-> ->].
  destruct l as [|a [|b [|c l]]]; reflexivity.
Qed.

Lemma path_and_query_id (host l : list ascii) :
  id_list l ->
  Url.path_and_query "https" host l
  = {| Url.scheme := "https"; Url.hostname := string_of_list_ascii host;
       Url.pathname := String "/" (string_of_list_ascii l); Url.query := None |}.
Proof.
  intros H. unfold Url.path_and_query.
  rewrite (break_none (Url.one_of "?#") l) by (intros c Hc; apply id_char_not_query_mark, H, Hc).
  change (Url.is_special "https") with true.
  change (String.eqb "https" "file") with false.
  rewrite (split_on_none (Url.is_separator true) l)
    by (intros c Hc; apply id_char_not_separator, H, Hc).
  rewrite (build_path_one l H). cbn. rewrite app_nil_r. reflexivity.
Qed.

Lemma clean_input (prefix id : string) :
  forallb (fun c => negb (Url.is_c0_or_space c)) (list_ascii_of_string prefix) = true ->
  id_chars id ->
  Url.preprocess (prefix ++ id) = (list_ascii_of_string prefix ++ list_ascii_of_string id)%list.
Proof.
  intros Hp Hid. rewrite preprocess_clean; [apply list_ascii_of_string_app |].
  rewrite list_ascii_of_string_app. intros c Hc. apply in_app_or in Hc.
  destruct Hc as [Hc|Hc].
  - rewrite forallb_forall in Hp. apply negb_true_iff, Hp, Hc.
  - apply id_char_not_space, (id_chars_list id Hid), Hc.
Qed.

Lemma parse_path_id (prefix host id : string) :
  forallb (fun c => negb (Url.is_c0_or_space c)) (list_ascii_of_string prefix) = true ->
  (forall l, Url.parse_preprocessed (list_ascii_of_string prefix ++ l)%list
             = Some (Url.path_and_query "https" (list_ascii_of_string host) l)) ->
  id_chars id ->
  Url.parse (prefix ++ id)
  = Some {| Url.scheme := "https"; Url.hostname := host;
            Url.pathname := String "/" id; Url.query := None |}.
Proof.
  intros Hp Hparse Hid. unfold Url.parse.
  rewrite (clean_input prefix id Hp Hid), Hparse.
  rewrite (path_and_query_id _ _ (id_chars_list id Hid)).
  rewrite !string_of_list_ascii_of_string. reflexivity.
Qed.

Lemma parse_youtu_be id : id_chars id ->
  Url.parse ("https://youtu.be/" ++ id)
  = Some {| Url.scheme := "https"; Url.hostname := "youtu.be";
            Url.pathname := String "/" id; Url.query := None |}.
Proof.
  apply parse_path_id; [reflexivity |]. intros l. reflexivity.
Qed.

Lemma split_on_app (p : ascii -> bool) (seg l : list ascii) (c : ascii) :
  (forall x, In x seg -> p x = false) -> p c = true ->
  Url.split_on p (seg ++ c :: l) = seg :: Url.split_on p l.
Proof.
  intros Hseg Hc. induction seg as [|x seg IH]; cbn.
  - rewrite Hc. reflexivity.
  - rewrite (Hseg x (or_introl eq_refl)).
    rewrite IH; [reflexivity |]. intros y Hy. apply Hseg. right. exact Hy.
Qed.

Lemma build_path_last (path : list (list ascii)) (l : list ascii) :
  id_list l -> Url.build_path false path [l] = (path ++ [l])%list.
Proof.
  intros H. cbn [Url.build_path].
  rewrite (percent_encode_none Url.path_set l) by (intros c Hc; apply id_char_path, H, Hc).
  destruct (not_dot_segment l H) as [-> ->].
  destruct path; destruct l as [|a [|b [|c l]]]; reflexivity.
Qed.

Lemma build_path_two (seg l : list ascii) :
  id_list seg -> id_list l -> Url.build_path false [] [seg; l] = [seg; l].
Proof.
  intros Hseg H. cbn [Url.build_path].
  rewrite (percent_encode_none Url.path_set seg)
    by (intros c Hc; apply id_char_path, Hseg, Hc).
  destruct (not_dot_segment seg Hseg) as [-> ->].
  change (Url.build_path false ([] ++ [match seg with
                                       | [a; _] => if false && Url.is_drive_letter seg then [a; ":"%char] else seg
                                       | _ => seg
                                       end]) [l] = [seg; l]).
  rewrite (build_path_last _ l H).
  destruct seg as [|a [|b [|c seg]]]; reflexivity.
Qed.

Lemma path_and_query_under (host seg l : list ascii) :
  id_list seg -> id_list l ->
  Url.path_and_query "https" host (seg ++ "/"%char :: l)
  = {| Url.scheme := "https"; Url.hostname := string_of_list_ascii host;
       Url.pathname := string_of_list_ascii ("/"%char :: seg ++ "/"%char :: l);
       Url.query := None |}.
Proof.
  intros Hseg H. unfold Url.path_and_query.
  rewrite (break_none (Url.one_of "?#")).
  2:{ intros c Hc. apply in_app_or in Hc. destruct Hc as [Hc|[<-|Hc]].
      - apply id_char_not_query_mark, Hseg, Hc.
      - reflexivity.
      - apply id_char_not_query_mark, H, Hc. }
  change (Url.is_special "https") with true.
  change (String.eqb "https" "file") with false.
  rewrite (split_on_app (Url.is_separator true) seg l "/")
    by (try reflexivity; intros c Hc; apply id_char_not_separator, Hseg, Hc).
  rewrite (split_on_none (Url.is_separator true) l)
    by (intros c Hc; apply id_char_not_separator, H, Hc).
  rewrite (build_path_two seg l Hseg H).
  unfold Url.serialize_path. cbn [flat_map Url.parse_query]. rewrite app_nil_r. reflexivity.
Qed.

Lemma parse_under (prefix host dir id : string) :
  forallb (fun c => negb (Url.is_c0_or_space c)) (list_ascii_of_string prefix) = true ->
  forallb id_char (list_ascii_of_string dir) = true ->
  (forall l, Url.parse_preprocessed (list_ascii_of_string prefix ++ l)%list
             = Some (Url.path_and_query "https" (list_ascii_of_string host)
                       (list_ascii_of_string dir ++ "/"%char :: l))) ->
  id_chars id ->
  Url.parse (prefix ++ id)
  = Some {| Url.scheme := "https"; Url.hostname := host;
            Url.pathname := "/" ++ dir ++ "/" ++ id; Url.query := None |}.
Proof.
  intros Hp Hdir Hparse Hid. unfold Url.parse.
  rewrite (clean_input prefix id Hp Hid), Hparse.
  rewrite (path_and_query_under _ _ _ (id_chars_list dir Hdir) (id_chars_list id Hid)).
  rewrite string_of_list_ascii_of_string. f_equal. f_equal.
  cbn [string_of_list_ascii append]. f_equal.
  rewrite <- (string_of_list_ascii_of_string dir) at 2.
  rewrite <- (string_of_list_ascii_of_string id) at 2.
  generalize (list_ascii_of_string dir) as a. generalize (list_ascii_of_string id) as b.
  intros b a. induction a as [|x a IH]; cbn; [reflexivity | f_equal; exact IH].
Qed.

Lemma parse_embed id : id_chars id ->
  Url.parse ("https://youtube.com/embed/" ++ id)
  = Some {| Url.scheme := "https"; Url.hostname := "youtube.com";
            Url.pathname := "/embed/" ++ id; Url.query := None |}.
Proof.
  intros H.
  apply (parse_under "https://youtube.com/embed/" "youtube.com" "embed" id);
    [reflexivity | reflexivity | intros l; reflexivity | exact H].
Qed.

Lemma query_v (l : list ascii) :
  id_list l ->
  Url.parse_query true ("?" :: "v" :: "=" :: l)%char
  = Some (string_of_list_ascii ("v" :: "=" :: l)%char).
Proof.
  intros H. cbn [Url.parse_query]. change (Ascii.eqb "?" "?") with true. cbn iota.
  rewrite (break_none (Ascii.eqb "#")).
  2:{ intros c [<-|[<-|Hc]]; [reflexivity | reflexivity |].
      apply id_char_not_hash, H, Hc. }
  cbn [fst]. rewrite percent_encode_none; [reflexivity |].
  intros c [<-|[<-|Hc]]; [reflexivity | reflexivity |].
  apply id_char_query, H, Hc.
Qed.

Lemma searchParams_get_v (sch host path : string) (l : list ascii) :
  id_list l ->
  Url.searchParams_get
    {| Url.scheme := sch; Url.hostname := host; Url.pathname := path;
       Url.query := Some (string_of_list_ascii ("v" :: "=" :: l)%char) |} "v"
  = Some (string_of_list_ascii l).
Proof.
  intros H. unfold Url.searchParams_get, Url.search_params. cbn [Url.query].
  rewrite list_ascii_of_string_of_list_ascii.
  rewrite (split_on_none (Ascii.eqb "&")).
  2:{ intros c [<-|[<-|Hc]]; [reflexivity | reflexivity |].
      apply id_char_not_amp, H, Hc. }
  cbn [filter map find].
  assert (E : Url.parse_pair ("v" :: "=" :: l)%char = ("v", string_of_list_ascii l)).
  { unfold Url.parse_pair.
    change (Url.break (Ascii.eqb "=") ("v" :: "=" :: l)%char) with (["v"%char], ("=" :: l)%char).
    cbn [tl]. f_equal. unfold Url.decode_component.
    replace (map Url.plus_to_space l) with l.
    - rewrite percent_decode_none; [reflexivity |].
      intros c Hc. apply id_char_not_percent, H, Hc.
    - symmetry. rewrite <- (map_id l) at 2. apply map_ext_in.
      intros c Hc. apply id_char_not_plus, H, Hc. }
  rewrite E. reflexivity.
Qed.

Lemma parse_watch id : id_chars id ->
  exists url,
    Url.parse ("https://www.youtube.com/watch?v=" ++ id) = Some url /\
    Url.hostname url = "www.youtube.com" /\ Url.pathname url = "/watch" /\
    Url.searchParams_get url "v" = Some id.
Proof.
  intros H. unfold Url.parse.
  rewrite (clean_input "https://www.youtube.com/watch?v=" id eq_refl H).
  set (l := list_ascii_of_string id).
  change (Url.parse_preprocessed (list_ascii_of_string "https://www.youtube.com/watch?v=" ++ l))
    with (Some {| Url.scheme := "https"; Url.hostname := "www.youtube.com";
                  Url.pathname := "/watch";
                  Url.query := Url.parse_query true ("?" :: "v" :: "=" :: l)%char |}).
  rewrite (query_v l (id_chars_list id H)).
  eexists. split; [reflexivity |]. split; [reflexivity |]. split; [reflexivity |].
  rewrite (searchParams_get_v _ _ _ l (id_chars_list id H)).
  unfold l. rewrite string_of_list_ascii_of_string. reflexivity.
Qed.

Lemma parse_shorts id : id_chars id ->
  Url.parse ("https://www.youtube.com/shorts/" ++ id)
  = Some {| Url.scheme := "https"; Url.hostname := "www.youtube.com";
            Url.pathname := "/shorts/" ++ id; Url.query := None |}.
Proof.
  intros H.
  apply (parse_under "https://www.youtube.com/shorts/" "www.youtube.com" "shorts" id);
    [reflexivity | reflexivity | intros l; reflexivity | exact H].
Qed.

Lemma startsWith_app (p s : string) : startsWith (p ++ s) p = true.
Proof.
  unfold startsWith. induction p as [|a p IH]; cbn.
  - destruct s; reflexivity.
  - destruct (ascii_dec a a) as [_|Hne]; [exact IH | congruence].
Qed.

Lemma id_of_url_under (host dir id : string) :
  String.eqb host "youtu.be" = false ->
  String.eqb host "www.youtube.com" || String.eqb host "youtube.com" = true ->
  String.eqb (dir ++ id) "/watch" = false ->
  (dir = "/embed/" \/ dir = "/shorts/") ->
  id_of_url {| Url.scheme := "https"; Url.hostname := host;
               Url.pathname := dir ++ id; Url.query := None |} = Some id.
Proof.
  intros H1 H2 Hw Hdir. unfold id_of_url. cbn [Url.hostname Url.pathname].
  rewrite H1, H2, Hw.
  destruct Hdir as [-> | ->].
  - rewrite (startsWith_app "/embed/" id). reflexivity.
  - change (startsWith ("/shorts/" ++ id) "/embed/") with false.
    rewrite (startsWith_app "/shorts/" id). reflexivity.
Qed.

(** An input with a slash in it is read as a URL. *)
Lemma extractVideoId_of_url (s : string) :
  truthy s = true -> includes s "/" = true ->
  extractVideoId s = match Url.parse s with
                     | Some url => id_of_url url
                     | None => None
                     end.
Proof.
  intros Ht Hs. unfold extractVideoId. rewrite Ht, Hs.
  cbn [negb]. rewrite andb_false_r. reflexivity.
Qed.

Lemma extractVideoId_bare (s : string) :
  String.length s = 11 -> includes s "/" = false -> includes s "?" = false ->
  extractVideoId s = Some s.
Proof.
  intros Hlen Hs Hq. unfold extractVideoId. rewrite Hlen, Hs, Hq.
  destruct s; [discriminate Hlen | reflexivity].
Qed.

(** C8: an 11-character string with neither [/] nor [?] is returned as it
    is; the short link, the watch URL, the embed URL and the shorts URL of
    a video ID give that ID; [https://example.com/foo] gives nothing. *)
Theorem extractVideoId_shapes :
  (forall s, String.length s = 11 ->
             includes s "/" = false -> includes s "?" = false ->
             extractVideoId s = Some s) /\
  (forall id, is_video_id id ->
              extractVideoId ("https://youtu.be/" ++ id) = Some id /\
              extractVideoId ("https://www.youtube.com/watch?v=" ++ id) = Some id /\
              extractVideoId ("https://youtube.com/embed/" ++ id) = Some id /\
              extractVideoId ("https://www.youtube.com/shorts/" ++ id) = Some id) /\
  extractVideoId "https://example.com/foo" = None.
Proof.
  split; [exact extractVideoId_bare |]. split; [| reflexivity].
  intros id [_ Hid]. repeat split.
  - rewrite extractVideoId_of_url by reflexivity.
    rewrite (parse_youtu_be id Hid). reflexivity.
  - rewrite extractVideoId_of_url by reflexivity.
    destruct (parse_watch id Hid) as [url [-> [Hh [Hp Hv]]]].
    unfold id_of_url. rewrite Hh, Hp. exact Hv.
  - rewrite extractVideoId_of_url by reflexivity.
    rewrite (parse_embed id Hid).
    apply id_of_url_under; [reflexivity | reflexivity | reflexivity | left; reflexivity].
  - rewrite extractVideoId_of_url by reflexivity.
    rewrite (parse_shorts id Hid).
    apply id_of_url_under; [reflexivity | reflexivity | reflexivity | right; reflexivity].
Qed.

Lemma extractVideoId_shapes_witness :
  (String.length "XXXXXXXXXXX" = 11 /\
   includes "XXXXXXXXXXX" "/" = false /\ includes "XXXXXXXXXXX" "?" = false /\
   is_video_id "XXXXXXXXXXX") /\
  extractVideoId "XXXXXXXXXXX" = Some "XXXXXXXXXXX" /\
  extractVideoId "https://youtu.be/XXXXXXXXXXX" = Some "XXXXXXXXXXX" /\
  extractVideoId "https://www.youtube.com/watch?v=XXXXXXXXXXX" = Some "XXXXXXXXXXX" /\
  extractVideoId "https://youtube.com/embed/XXXXXXXXXXX" = Some "XXXXXXXXXXX" /\
  extractVideoId "https://www.youtube.com/shorts/XXXXXXXXXXX" = Some "XXXXXXXXXXX".
Proof.
  assert (Hid : is_video_id "XXXXXXXXXXX") by (split; reflexivity).
  split; [repeat split |].
  split; [apply (proj1 extractVideoId_shapes); reflexivity |].
  exact (proj1 (proj2 extractVideoId_shapes) "XXXXXXXXXXX" Hid).
Defined.

(** The same shapes on a real-looking ID, by evaluation. *)
Example extractVideoId_samples :
  map extractVideoId
      [ "dQw4w9WgXcQ";
        "https://youtu.be/dQw4w9WgXcQ";
        "https://www.youtube.com/watch?v=dQw4w9WgXcQ&t=42s";
        "https://youtube.com/embed/dQw4w9WgXcQ?rel=0";
        "https://www.youtube.com/shorts/dQw4w9WgXcQ";
        "https://example.com/foo";
        "not a url" ]
  = [ Some "dQw4w9WgXcQ"; Some "dQw4w9WgXcQ"; Some "dQw4w9WgXcQ";
      Some "dQw4w9WgXcQ"; Some "dQw4w9WgXcQ"; None; None ].
Proof. reflexivity. Qed.

(** * Further properties *)

(** ** The entity decoder: lengths *)

Lemma string_length_app (a b : string) :
  String.length (a ++ b) = String.length a + String.length b.
Proof. induction a as [|c a IH]; cbn; [reflexivity | rewrite IH; reflexivity]. Qed.

Lemma prefix_length (p s : string) :
  prefix p s = true -> String.length p <= String.length s.
Proof.
  revert p. induction s as [|c s IH]; intros [|a p]; cbn; try lia; try discriminate.
  destruct (ascii_dec a c); [| discriminate].
  intros H. apply IH in H. lia.
Qed.

Section ReplaceLength.

Variables pat rep : string.
Hypothesis shorter : String.length rep <= String.length pat.

Lemma replace_go_length (s : string) :
  forall skip,
    String.length (replace_go pat rep skip s) + Nat.min skip (String.length s)
    <= String.length s.
Proof using shorter.
  induction s as [|c s IH]; intros skip.
  - cbn. lia.
  - destruct skip as [|k].
    + cbn [replace_go]. destruct (prefix pat (String c s)) eqn:Hp.
      * apply prefix_length in Hp. cbn [String.length] in *.
        rewrite string_length_app.
        specialize (IH (String.length pat - 1)). lia.
      * specialize (IH 0). cbn [String.length]. lia.
    + cbn [replace_go String.length]. specialize (IH k). lia.
Qed.

Lemma replaceAll_length (s : string) :
  String.length (replaceAll pat rep s) <= String.length s.
Proof using shorter.
  unfold replaceAll. pose proof (replace_go_length s 0). lia.
Qed.

End ReplaceLength.

Lemma replaceAll_shrinks (pat rep s : string) :
  String.length rep < String.length pat ->
  includes s pat = true ->
  String.length (replaceAll pat rep s) < String.length s.
Proof.
  intros strictly. unfold replaceAll. induction s as [|c s IH].
  - cbn. destruct pat; [cbn in strictly; lia | discriminate].
  - cbn [includes replace_go]. destruct (prefix pat (String c s)) eqn:Hp.
    + intros _. apply prefix_length in Hp. cbn [String.length] in *.
      rewrite string_length_app.
      pose proof (replace_go_length pat rep (Nat.lt_le_incl _ _ strictly) s
                    (String.length pat - 1)). lia.
    + cbn [orb String.length]. intros H. specialize (IH H). lia.
Qed.

(** One replacement of the decoder: an entity of at least four characters
    for one character. *)
Lemma entity_step_length (er : string * string) (s : string) :
  In er entity_table ->
  String.length (replaceAll (fst er) (snd er) s) <= String.length s /\
  (includes s (fst er) = true ->
   String.length (replaceAll (fst er) (snd er) s) < String.length s).
Proof.
  intros Hin.
  assert (Hlt : String.length (snd er) < String.length (fst er)).
  { cbn in Hin.
    repeat (destruct Hin as [<-|Hin]; [cbn; lia |]). destruct Hin. }
  split.
  - apply replaceAll_length. lia.
  - apply replaceAll_shrinks, Hlt.
Qed.

Lemma fold_entities_length (table : list (string * string)) (s : string) :
  incl table entity_table ->
  String.length (fold_left (fun acc er => replaceAll (fst er) (snd er) acc) table s)
  <= String.length s.
Proof.
  revert s. induction table as [|er table IH]; intros s Hincl; cbn [fold_left].
  - lia.
  - etransitivity.
    + apply IH. intros x Hx. apply Hincl. right. exact Hx.
    + apply entity_step_length, Hincl. left. reflexivity.
Qed.

Lemma fold_entities_fixed (table : list (string * string)) (s : string) :
  incl table entity_table ->
  fold_left (fun acc er => replaceAll (fst er) (snd er) acc) table s = s ->
  Forall (fun er => includes s (fst er) = false) table.
Proof.
  revert s. induction table as [|er table IH]; intros s Hincl Hfix; [constructor |].
  cbn [fold_left] in Hfix.
  assert (Her : In er entity_table) by (apply Hincl; left; reflexivity).
  assert (Htl : incl table entity_table) by (intros x Hx; apply Hincl; right; exact Hx).
  destruct (includes s (fst er)) eqn:E.
  - exfalso.
    pose proof (proj2 (entity_step_length er s Her) E) as Hlt.
    pose proof (fold_entities_length table (replaceAll (fst er) (snd er) s) Htl) as Hle.
    rewrite Hfix in Hle. lia.
  - rewrite (replaceAll_absent (fst er) (snd er) s E) in Hfix.
    constructor; [exact E | apply IH; assumption].
Qed.

Lemma decode_is_fold (s : string) :
  decodeHtmlEntities (Some s)
  = fold_left (fun acc er => replaceAll (fst er) (snd er) acc) entity_table s.
Proof. destruct s; reflexivity. Qed.

(** X1: the decoder never makes a text longer, and it returns a text as
    it is exactly when the text holds none of the six entities. *)
Theorem decodeHtmlEntities_never_longer (s : string) :
  String.length (decodeHtmlEntities (Some s)) <= String.length s /\
  (decodeHtmlEntities (Some s) = s <-> no_entities s).
Proof.
  rewrite decode_is_fold. split.
  - apply fold_entities_length, incl_refl.
  - split.
    + apply fold_entities_fixed, incl_refl.
    + intros H. rewrite <- decode_is_fold. apply no_entities_decode, H.
Qed.

(** ** The normaliser: cues, dropped segments, the two variants *)

Lemma replaceAll_nonempty (pat rep s : string) :
  rep <> "" -> s <> "" -> replaceAll pat rep s <> "".
Proof.
  intros Hrep Hs. destruct s as [|c s]; [congruence |].
  unfold replaceAll. cbn [replace_go].
  destruct (prefix pat (String c s)); [| discriminate].
  destruct rep; [congruence | discriminate].
Qed.

Lemma decode_nonempty (c : ascii) (s : string) :
  decodeHtmlEntities (Some (String c s)) <> "".
Proof.
  unfold decodeHtmlEntities. cbn [truthy negb].
  repeat (apply replaceAll_nonempty; [discriminate |]). discriminate.
Qed.

(** X2: decoding empties nothing: the result is the empty string only for
    null, undefined and the empty string. *)
Theorem decodeHtmlEntities_empty_iff (t : option string) :
  decodeHtmlEntities t = "" <-> t = None \/ t = Some "".
Proof.
  split.
  - destruct t as [s|]; [| left; reflexivity].
    destruct s as [|c s]; [right; reflexivity |].
    intros H. exfalso. exact (decode_nonempty c s H).
  - intros [-> | ->]; reflexivity.
Qed.

Lemma extractText_of_cue (cue : Cue_renderer) :
  extractTextFromSegment (segment_of_cue cue) = cue_text_of cue.
Proof.
  unfold extractTextFromSegment, cue_text_of, from_renderer, from_cue_group,
    first_cue, from_text, from_runs, from_snippet, snippet_text_or_runs.
  destruct cue as [[[st sr]|] so d]; cbn; [| reflexivity].
  destruct (truthy_string st); cbn; [reflexivity |].
  destruct sr; reflexivity.
Qed.

(** X3: a segment without a renderer whose cue group has a first cue is
    normalised from that cue alone, in both variants: the text is the
    decoded [text.text], else [text.runs] joined, else empty; the offset is
    [start_offset_ms / 1000] and the duration [duration_ms / 1000], a
    missing field counting as [0]. *)
Theorem cue_segment_normalized (segment : AnySegment) (cue : Cue_renderer) :
  transcript_segment_renderer segment = None ->
  first_cue segment = Some cue ->
  normalizeSegment segment
  = {| text := decodeHtmlEntities (Some (cue_text_of cue));
       offset := num_div (ms_or_zero (cue_start_offset_ms cue)) 1000;
       duration := num_div (ms_or_zero (cue_duration_ms cue)) 1000 |} /\
  PrimaryOnly.normalizeSegment segment = normalizeSegment segment.
Proof.
  intros Ht Hc. unfold normalizeSegment, PrimaryOnly.normalizeSegment.
  rewrite Ht, Hc, extractText_of_cue, !parseFloat_or_zero. split; reflexivity.
Qed.

Lemma cue_segment_normalized_witness :
  transcript_segment_renderer (wrap_cue cue_tom_and_jerry) = None /\
  first_cue (wrap_cue cue_tom_and_jerry) = Some cue_tom_and_jerry /\
  normalizeSegment (wrap_cue cue_tom_and_jerry)
  = {| text := "Tom & Jerry"; offset := Fin (1 # 2); duration := Fin (5 # 4) |}.
Proof.
  split; [reflexivity |]. split; [reflexivity |].
  rewrite (proj1 (cue_segment_normalized (wrap_cue cue_tom_and_jerry) cue_tom_and_jerry
                    eq_refl eq_refl)).
  reflexivity.
Defined.

(** X4: the two variants of the [map] callback give every segment the
    same text and the same offset, and the same duration too unless the
    segment is generic and has a [duration_ms]. *)
Theorem variants_agree (segment : AnySegment) :
  text (PrimaryOnly.normalizeSegment segment) = text (normalizeSegment segment) /\
  offset (PrimaryOnly.normalizeSegment segment) = offset (normalizeSegment segment) /\
  (is_generic segment -> truthy_string (seg_duration_ms segment) = None ->
   PrimaryOnly.normalizeSegment segment = normalizeSegment segment) /\
  (~ is_generic segment ->
   PrimaryOnly.normalizeSegment segment = normalizeSegment segment).
Proof.
  unfold is_generic, normalizeSegment, PrimaryOnly.normalizeSegment.
  destruct (transcript_segment_renderer segment) as [tsr|].
  { repeat split; reflexivity. }
  destruct (first_cue segment) as [cue|].
  { repeat split; reflexivity. }
  cbn [text offset]. split; [reflexivity |]. split; [reflexivity |]. split.
  - intros _ ->. reflexivity.
  - intros H. exfalso. apply H. split; reflexivity.
Qed.

Lemma normalizeSegment_text (segment : AnySegment) :
  text (normalizeSegment segment) = decodeHtmlEntities (Some (raw_text segment)).
Proof.
  unfold normalizeSegment, raw_text.
  destruct (transcript_segment_renderer segment); [reflexivity |].
  destruct (first_cue segment); reflexivity.
Qed.

Lemma own_fields_only (o : AnySegment) :
  from_renderer o = None -> from_cue_group o = None ->
  extractTextFromSegment o = own_fields_text o.
Proof.
  intros Hr Hc. unfold extractTextFromSegment. rewrite Hr, Hc. cbn [orelse].
  unfold own_fields_text, from_text, from_runs, from_snippet, snippet_text_or_runs.
  destruct (seg_text o) as [[s|sn]|]; cbn [orelse].
  - destruct (truthy s); cbn [orelse]; [reflexivity |].
    destruct (seg_runs o); cbn; [reflexivity |].
    destruct (seg_snippet o) as [sn|]; [| reflexivity].
    destruct (truthy_string (snippet_text sn)); [reflexivity |].
    destruct (snippet_runs sn); reflexivity.
  - destruct (truthy_string (snippet_text sn)); cbn [orelse]; [reflexivity |].
    destruct (snippet_runs sn); cbn; [reflexivity |].
    destruct (seg_runs o); cbn; [reflexivity |].
    destruct (seg_snippet o) as [sn'|]; [| reflexivity].
    destruct (truthy_string (snippet_text sn')); [reflexivity |].
    destruct (snippet_runs sn'); reflexivity.
  - destruct (seg_runs o); cbn; [reflexivity |].
    destruct (seg_snippet o) as [sn|]; [| reflexivity].
    destruct (truthy_string (snippet_text sn)); [reflexivity |].
    destruct (snippet_runs sn); reflexivity.
Qed.

(** X15: on the object the [map] callback hands over, the renderer block
    and the cue-group block of [extractTextFromSegment] find nothing, so
    the text of every segment comes from that object's own fields, in the
    order [text], [runs], [snippet]; a [runs] array, even an empty one,
    hides the snippet. *)
Theorem handler_text_from_own_fields (segment : AnySegment) :
  from_renderer (extract_argument segment) = None /\
  from_cue_group (extract_argument segment) = None /\
  text (normalizeSegment segment)
  = decodeHtmlEntities (Some (own_fields_text (extract_argument segment))) /\
  text (PrimaryOnly.normalizeSegment segment)
  = decodeHtmlEntities (Some (own_fields_text (extract_argument segment))).
Proof.
  assert (H : from_renderer (extract_argument segment) = None /\
              from_cue_group (extract_argument segment) = None).
  { unfold extract_argument.
    destruct (transcript_segment_renderer segment) as [tsr|] eqn:Ht;
      [split; reflexivity |].
    destruct (first_cue segment) as [cue|] eqn:Hc; [split; reflexivity |].
    unfold from_renderer, from_cue_group. rewrite Ht, Hc. split; reflexivity. }
  destruct H as [Hr Hc]. split; [exact Hr |]. split; [exact Hc |].
  rewrite <- (own_fields_only _ Hr Hc).
  unfold normalizeSegment, PrimaryOnly.normalizeSegment, extract_argument.
  destruct (transcript_segment_renderer segment); [split; reflexivity |].
  destruct (first_cue segment); split; reflexivity.
Qed.

(** X5: the transcript holds exactly the normalised segments whose text
    before decoding is not empty: decoding never makes the filter drop a
    segment. *)
Theorem segment_kept_iff_raw_text (segments : list AnySegment) (ts : TranscriptSegment) :
  In ts (formatSegments segments) <->
  exists segment, In segment segments /\ ts = normalizeSegment segment /\
                  raw_text segment <> "".
Proof.
  unfold formatSegments, keep_nonempty. rewrite filter_In, in_map_iff. split.
  - intros [[segment [E Hin]] Ht]. exists segment. subst ts.
    split; [exact Hin |]. split; [reflexivity |].
    intros Hraw. rewrite normalizeSegment_text, Hraw in Ht. discriminate Ht.
  - intros [segment [Hin [-> Hraw]]]. split.
    + exists segment. split; [reflexivity | exact Hin].
    + rewrite normalizeSegment_text.
      destruct (raw_text segment) as [|c r] eqn:Er; [congruence |].
      pose proof (decode_nonempty c r) as Hne.
      destruct (decodeHtmlEntities (Some (String c r))); [congruence | reflexivity].
Qed.

(** X6: segments are normalised one by one and stay in order: the
    transcript of two lists in a row is the two transcripts in a row, and
    a transcript is never longer than the list it comes from. *)
Theorem formatSegments_app (a b : list AnySegment) :
  formatSegments (a ++ b) = (formatSegments a ++ formatSegments b)%list /\
  List.length (formatSegments a) <= List.length a.
Proof.
  unfold formatSegments, keep_nonempty. split.
  - rewrite map_app, filter_app. reflexivity.
  - etransitivity; [apply filter_length_le |]. rewrite length_map. lia.
Qed.

(** ** The fallback fetcher and the responses *)

(** X7: the fallback returns segments only when the command succeeded;
    the file it reads is the first of the directory listing whose name
    starts with [videoId_uniqueId] and ends in [.vtt]; and it returns one
    segment per cue, in order, or none when the parser gives no cues. *)
Theorem fallback_success (id : string) (w : YtDlp) (t : list TranscriptSegment) :
  fetchTranscriptWithYtDlp id w = Ok t ->
  execPromise w = Ok tt /\
  exists f before after,
    readdirSync w = (before ++ f :: after)%list /\
    is_subtitle_of id w f = true /\
    (forall g, In g before -> is_subtitle_of id w g = false) /\
    ((parse_vtt w f = Ok None /\ t = []) \/
     (exists cues, parse_vtt w f = Ok (Some cues) /\
                   t = map segment_of_vtt_cue cues /\
                   List.length t = List.length cues)).
Proof.
  unfold fetchTranscriptWithYtDlp.
  destruct (execPromise w) as [[]|e]; cbn [try_catch bind]; [| discriminate].
  fold (is_subtitle_of id w).
  destruct (find (is_subtitle_of id w) (readdirSync w)) as [f|] eqn:Hfind;
    [| discriminate].
  intros H. split; [reflexivity |].
  assert (Hsplit : exists before after,
             readdirSync w = (before ++ f :: after)%list /\
             is_subtitle_of id w f = true /\
             (forall g, In g before -> is_subtitle_of id w g = false)).
  { clear H. revert Hfind. generalize (readdirSync w) as l.
    induction l as [|x l IH]; cbn [find]; [discriminate |].
    destruct (is_subtitle_of id w x) eqn:Hx.
    - intros E; injection E as <-. exists [], l.
      split; [reflexivity |]. split; [exact Hx |]. intros g [].
    - intros Hf. destruct (IH Hf) as [before [after [-> [Hm Hb]]]].
      exists (x :: before), after. split; [reflexivity |]. split; [exact Hm |].
      intros g [<-|Hg]; [exact Hx | apply Hb, Hg]. }
  destruct Hsplit as [before [after [Hl [Hm Hb]]]].
  exists f, before, after. split; [exact Hl |]. split; [exact Hm |].
  split; [exact Hb |].
  destruct (parse_vtt w f) as [[cues|]|e]; cbn [bind] in H.
  - injection H as <-. right. exists cues.
    split; [reflexivity |]. split; [reflexivity | apply length_map].
  - injection H as <-. left. split; reflexivity.
  - discriminate H.
Qed.

Lemma fallback_success_witness :
  fetchTranscriptWithYtDlp "dQw4w9WgXcQ" (ytdlp_with (Some sample_cues))
  = Ok [ {| text := "Hello"; offset := Fin 0; duration := Fin (3 # 2) |};
         {| text := "world"; offset := Fin (3 # 2); duration := Fin (5 # 2) |} ] /\
  execPromise (ytdlp_with (Some sample_cues)) = Ok tt.
Proof.
  split; [reflexivity |].
  exact (proj1 (fallback_success "dQw4w9WgXcQ" (ytdlp_with (Some sample_cues)) _ eq_refl)).
Defined.

(** X8: when the command succeeds and no file of the directory has the
    stem [videoId_uniqueId] and the extension [.vtt], the fallback throws
    the error "No transcript found (yt-dlp)". *)
Theorem fallback_no_file (id : string) (w : YtDlp) :
  execPromise w = Ok tt ->
  (forall f, In f (readdirSync w) -> is_subtitle_of id w f = false) ->
  fetchTranscriptWithYtDlp id w = Throw (mkError false "No transcript found (yt-dlp)").
Proof.
  intros He Hnone. unfold fetchTranscriptWithYtDlp. rewrite He.
  cbn [try_catch bind]. fold (is_subtitle_of id w).
  destruct (find (is_subtitle_of id w) (readdirSync w)) as [f|] eqn:Hfind;
    [| reflexivity].
  apply find_some in Hfind. destruct Hfind as [Hin Hm].
  rewrite (Hnone f Hin) in Hm. discriminate Hm.
Qed.

Lemma fallback_no_file_witness :
  execPromise ytdlp_no_file = Ok tt /\
  (forall f, In f (readdirSync ytdlp_no_file) ->
             is_subtitle_of "dQw4w9WgXcQ" ytdlp_no_file f = false) /\
  fetchTranscriptWithYtDlp "dQw4w9WgXcQ" ytdlp_no_file
  = Throw (mkError false "No transcript found (yt-dlp)").
Proof.
  split; [reflexivity |]. split; [intros f [] |].
  apply (fallback_no_file "dQw4w9WgXcQ" ytdlp_no_file); [reflexivity | intros f []].
Defined.

(** The cases of the [try] block. *)
Lemma fetch_and_respond_cases (id : string) (youtube : Innertube) (w : YtDlp) :
  fetch_and_respond id youtube w =
  match primary_transcript id youtube with
  | _ :: _ => Ok (success (primary_title id youtube) (primary_transcript id youtube))
  | [] =>
      match fetchTranscriptWithYtDlp id w with
      | Ok [] => Ok (no_transcript (primary_title id youtube))
      | Ok t => Ok (success (primary_title id youtube) t)
      | Throw _ => Throw (mkError false "Failed to fetch transcript from both sources.")
      end
  end.
Proof.
  unfold fetch_and_respond, primary_transcript, primary_title.
  destruct (primary_attempt id youtube) as [title [|x t]]; cbn [fst snd].
  - cbn [is_empty List.length Nat.eqb].
    destruct (fetchTranscriptWithYtDlp id w) as [[|y t']|e]; reflexivity.
  - reflexivity.
Qed.

Lemma handler_cases (q : option string) (youtube : Innertube) (w : YtDlp) :
  handler q youtube w = missing_input \/
  handler q youtube w = invalid_format \/
  exists id,
    (exists s, q = Some s /\ truthy_string (extractVideoId s) = Some id) /\
    ((exists t, t <> [] /\
                handler q youtube w = success (primary_title id youtube) t) \/
     handler q youtube w = no_transcript (primary_title id youtube) \/
     handler q youtube w = failure 500 "Failed to fetch transcript." id).
Proof.
  unfold handler.
  destruct (truthy_string q) as [s|] eqn:Hq; [| left; reflexivity].
  apply truthy_string_Some in Hq. destruct Hq as [-> _].
  destruct (truthy_string (extractVideoId s)) as [id|] eqn:Hid;
    [| right; left; reflexivity].
  right; right. exists id. split; [exists s; split; reflexivity || exact Hid |].
  rewrite fetch_and_respond_cases.
  destruct (primary_transcript id youtube) as [|x t].
  - destruct (fetchTranscriptWithYtDlp id w) as [[|y t']|e].
    + right; left. reflexivity.
    + left. exists (y :: t'). split; [discriminate | reflexivity].
    + right; right. reflexivity.
  - left. exists (x :: t). split; [discriminate | reflexivity].
Qed.

(** X9: the handler of [index.ts] answers with status 200, 400, 404 or
    500; status 200 goes with a transcript that is not empty and with no
    error message, every other status with an error message and no
    transcript. *)
Theorem handler_response_shape (q : option string) (youtube : Innertube) (w : YtDlp) :
  In (status (handler q youtube w)) [200; 400; 404; 500] /\
  (status (handler q youtube w) = 200 <->
   exists t, transcript (body (handler q youtube w)) = Some t /\ t <> []) /\
  (status (handler q youtube w) = 200 <-> error (body (handler q youtube w)) = None) /\
  (transcript (body (handler q youtube w)) = None <->
   error (body (handler q youtube w)) <> None).
Proof.
  destruct (handler_cases q youtube w)
    as [-> | [-> | [id [_ [[t [Ht ->]] | [-> | ->]]]]]]; cbn.
  all: repeat split; try (intros; discriminate); try tauto; try lia.
  all: try (intros [t' [E _]]; discriminate E).
  all: try (intros H; exfalso; apply H; reflexivity).
  - intros _. exists t. split; [reflexivity | exact Ht].
Qed.

Lemma handler_of_requested (q : option string) (youtube : Innertube) (w : YtDlp) :
  match requested_id q with
  | Some id =>
      handler q youtube w =
      match fetch_and_respond id youtube w with
      | Ok response => response
      | Throw err => on_error id err
      end
  | None => status (handler q youtube w) = 400
  end.
Proof.
  unfold requested_id, handler.
  destruct (truthy_string q) as [s|]; [| reflexivity].
  destruct (truthy_string (extractVideoId s)); reflexivity.
Qed.

Lemma primary_only_handler_of_requested (q : option string) (youtube : Innertube) :
  match requested_id q with
  | Some id =>
      PrimaryOnlyHandler.handler q youtube =
      match PrimaryOnlyHandler.fetch_and_respond id youtube with
      | Ok response => response
      | Throw err => PrimaryOnlyHandler.on_error id err
      end
  | None => status (PrimaryOnlyHandler.handler q youtube) = 400
  end.
Proof.
  unfold requested_id, PrimaryOnlyHandler.handler.
  destruct (truthy_string q) as [s|]; [| reflexivity].
  destruct (truthy_string (extractVideoId s)); reflexivity.
Qed.

Lemma primary_only_on_error_status (id : string) (err : Error) :
  In (status (PrimaryOnlyHandler.on_error id err)) [403; 404; 451; 500].
Proof.
  unfold PrimaryOnlyHandler.on_error.
  repeat match goal with
         | |- context [if ?b then _ else _] => destruct b
         end; cbn; tauto.
Qed.

Lemma primary_only_fetch_status (id : string) (youtube : Innertube) (r : Response) :
  PrimaryOnlyHandler.fetch_and_respond id youtube = Ok r ->
  status r = 200 \/ status r = 404.
Proof.
  unfold PrimaryOnlyHandler.fetch_and_respond.
  destruct (youtube id) as [info|e]; cbn [bind]; [| discriminate].
  destruct (getTranscript info) as [[segments|]|e]; cbn [bind]; try discriminate;
    intros E; injection E as <-; [left | right]; reflexivity.
Qed.

(** X10: in both variants status 400 is the answer exactly to a request
    without a usable video ID (no [id], an empty one, or one the extractor
    rejects or maps to the empty string); no outcome of a fetch is answered
    with 400. *)
Theorem status_400_iff_invalid (q : option string) (youtube : Innertube) (w : YtDlp) :
  (status (handler q youtube w) = 400 <-> requested_id q = None) /\
  (status (PrimaryOnlyHandler.handler q youtube) = 400 <-> requested_id q = None).
Proof.
  pose proof (handler_of_requested q youtube w) as H1.
  pose proof (primary_only_handler_of_requested q youtube) as H2.
  destruct (requested_id q) as [id|].
  - split; (split; [| discriminate]); intros H; exfalso.
    + rewrite H1, fetch_and_respond_cases in H.
      destruct (primary_transcript id youtube); [| discriminate H].
      destruct (fetchTranscriptWithYtDlp id w) as [[|y t]|e]; discriminate H.
    + rewrite H2 in H.
      destruct (PrimaryOnlyHandler.fetch_and_respond id youtube) as [r|e] eqn:E.
      * apply primary_only_fetch_status in E. destruct E as [E|E];
          rewrite E in H; discriminate H.
      * pose proof (primary_only_on_error_status id e) as Hs. rewrite H in Hs.
        cbn in Hs. intuition discriminate.
  - split; (split; [reflexivity | intros _; assumption]).
Qed.

Lemma primary_title_cases (id : string) (youtube : Innertube) :
  primary_title id youtube =
  match youtube id with
  | Ok info => title_or_default (basic_info_title info)
  | Throw _ => "Untitled Video"
  end.
Proof.
  unfold primary_title, primary_attempt.
  destruct (youtube id) as [info|e]; [| reflexivity].
  destruct (getTranscript info) as [[segments|]|e]; reflexivity.
Qed.

(** X11: when the primary fetch gave nothing and the fallback returns
    segments, the answer has status 200, these segments as they are, and
    the decoded title of the metadata fetch, "Untitled Video" when that
    fetch failed or gave no title. *)
Theorem fallback_answer (q : option string) (id : string) (youtube : Innertube)
        (w : YtDlp) (t : list TranscriptSegment) :
  requested_id q = Some id ->
  primary_transcript id youtube = [] ->
  fetchTranscriptWithYtDlp id w = Ok t ->
  t <> [] ->
  handler q youtube w
  = {| status := 200;
       body := {| error := None; videoId := None;
                  videoTitle := Some (decodeHtmlEntities
                                        (Some match youtube id with
                                              | Ok info => title_or_default (basic_info_title info)
                                              | Throw _ => "Untitled Video"
                                              end));
                  transcript := Some t |} |}.
Proof.
  intros Hid Hp Hf Ht.
  pose proof (handler_of_requested q youtube w) as H. rewrite Hid in H.
  rewrite H, fetch_and_respond_cases, Hp, Hf, <- primary_title_cases.
  destruct t; [congruence | reflexivity].
Qed.

Lemma fallback_answer_witness :
  requested_id (Some "https://youtu.be/dQw4w9WgXcQ") = Some "dQw4w9WgXcQ" /\
  primary_transcript "dQw4w9WgXcQ" (youtube_without_transcript (Some "Tom &amp; Jerry")) = [] /\
  handler (Some "https://youtu.be/dQw4w9WgXcQ")
          (youtube_without_transcript (Some "Tom &amp; Jerry"))
          (ytdlp_with (Some sample_cues))
  = {| status := 200;
       body := {| error := None; videoId := None;
                  videoTitle := Some "Tom & Jerry";
                  transcript := Some (map segment_of_vtt_cue sample_cues) |} |}.
Proof.
  split; [reflexivity |]. split; [reflexivity |].
  rewrite (fallback_answer (Some "https://youtu.be/dQw4w9WgXcQ") "dQw4w9WgXcQ"
             (youtube_without_transcript (Some "Tom &amp; Jerry"))
             (ytdlp_with (Some sample_cues))
             (map segment_of_vtt_cue sample_cues)
             eq_refl eq_refl eq_refl);
    [reflexivity | discriminate].
Defined.

(** X12: the error message of a response of [index.ts] is one of four
    fixed texts, never the text of an exception; a video ID in the body is
    the extracted ID of the request; a title in the body is the title of
    the metadata fetch, entity-decoded in a 200 response and as fetched in
    a 404 response. *)
Theorem handler_messages (q : option string) (youtube : Innertube) (w : YtDlp) :
  (forall msg, error (body (handler q youtube w)) = Some msg -> In msg curated_messages) /\
  (forall id, videoId (body (handler q youtube w)) = Some id -> requested_id q = Some id) /\
  (forall title, videoTitle (body (handler q youtube w)) = Some title ->
                 exists id, requested_id q = Some id /\
                   ((status (handler q youtube w) = 200 /\
                     title = decodeHtmlEntities (Some (primary_title id youtube))) \/
                    (status (handler q youtube w) = 404 /\
                     title = primary_title id youtube))).
Proof.
  pose proof (handler_of_requested q youtube w) as H.
  destruct (requested_id q) as [id|] eqn:Hid.
  - rewrite H, fetch_and_respond_cases. clear H.
    destruct (primary_transcript id youtube) as [|x t].
    + destruct (fetchTranscriptWithYtDlp id w) as [[|y t']|e]; cbn;
        (split; [intros msg E; try discriminate E; injection E as <-; tauto |]);
        (split; [intros id' E; try discriminate E; injection E as <-; reflexivity |]);
        intros title E; try discriminate E; injection E as <-;
        exists id; (split; [reflexivity |]); [right | left]; split; reflexivity.
    + cbn. split; [intros msg E; discriminate E |].
      split; [intros id' E; discriminate E |].
      intros title E; injection E as <-. exists id. split; [reflexivity |].
      left. split; reflexivity.
  - unfold requested_id in Hid. unfold handler.
    destruct (truthy_string q) as [s|].
    + rewrite Hid. cbn. split; [intros msg E; injection E as <-; tauto |].
      split; intros ? E; discriminate E.
    + cbn. split; [intros msg E; injection E as <-; tauto |].
      split; intros ? E; discriminate E.
Qed.

(** X13: the [catch] of the primary-only variant always echoes the video
    ID with one of its fixed messages; leaving aside a [SyntaxError] about
    JSON (status 500), it answers 403 exactly when the message holds
    "private", "unavailable", "premiere" or "live", 451 exactly when it
    holds none of these and a region marker, and 404 exactly when it holds
    none of those and "Transcripts are not available for this video". *)
Theorem primary_only_classification (id : string) (err : Error) :
  let r := PrimaryOnlyHandler.on_error id err in
  let json := is_SyntaxError err && includes (message err) "JSON" in
  let region := includes (message err) " অঞ্চলের কারণে"
                || includes (message err) "region-locked" in
  videoId (body r) = Some id /\ transcript (body r) = None /\
  (exists msg, error (body r) = Some msg /\ In msg curated_messages_primary_only) /\
  (status r = 403 <-> json = false /\ mentions_inaccessible (message err) = true) /\
  (status r = 451 <-> json = false /\ mentions_inaccessible (message err) = false
                      /\ region = true) /\
  (status r = 404 <-> json = false /\ mentions_inaccessible (message err) = false
                      /\ region = false
                      /\ includes (message err) "Transcripts are not available for this video" = true).
Proof.
  unfold PrimaryOnlyHandler.on_error, mentions_inaccessible. cbv zeta.
  destruct (is_SyntaxError err && includes (message err) "JSON").
  { cbn. repeat split; try (intros; discriminate); try (intros [? _]; discriminate).
    eexists; split; [reflexivity | cbn; tauto]. }
  destruct (includes (message err) "private" || includes (message err) "unavailable"
            || includes (message err) "premiere" || includes (message err) "live").
  { cbn. repeat split; try (intros; discriminate);
      try (intros [_ [? _]]; discriminate).
    eexists; split; [reflexivity | cbn; tauto]. }
  destruct (includes (message err) " অঞ্চলের কারণে" || includes (message err) "region-locked").
  { cbn. repeat split; try (intros; discriminate);
      try (intros [_ [_ [? _]]]; discriminate); try (intros [_ ?]; discriminate).
    eexists; split; [reflexivity | cbn; tauto]. }
  destruct (includes (message err) "Transcripts are not available for this video").
  { cbn. repeat split; try (intros; discriminate);
      try (intros [_ [_ ?]]; discriminate); try (intros [_ ?]; discriminate).
    eexists; split; [reflexivity | cbn; tauto]. }
  cbn. repeat split; try (intros; discriminate);
    try (intros [_ [_ [_ ?]]]; discriminate); try (intros [_ [_ ?]]; discriminate);
    try (intros [_ ?]; discriminate).
  eexists; split; [reflexivity | cbn; tauto].
Qed.

(** X14: for a valid request the primary-only variant answers 200 with
    the normalised segments whenever the transcript path is there, also
    when no segment is left; 404 with the title when the path is missing;
    and what its [catch] makes of the exception when a fetch throws. Its
    status is then one of 200, 403, 404, 451, 500. *)
Theorem primary_only_outcomes (q : option string) (id : string) (youtube : Innertube) :
  requested_id q = Some id ->
  (forall info segments,
      youtube id = Ok info -> getTranscript info = Ok (Some segments) ->
      PrimaryOnlyHandler.handler q youtube
      = success (title_or_default (basic_info_title info))
                (PrimaryOnly.formatSegments segments)) /\
  (forall info,
      youtube id = Ok info -> getTranscript info = Ok None ->
      PrimaryOnlyHandler.handler q youtube
      = no_transcript (title_or_default (basic_info_title info))) /\
  (forall err,
      youtube id = Throw err \/
      (exists info, youtube id = Ok info /\ getTranscript info = Throw err) ->
      PrimaryOnlyHandler.handler q youtube = PrimaryOnlyHandler.on_error id err) /\
  In (status (PrimaryOnlyHandler.handler q youtube)) [200; 403; 404; 451; 500].
Proof.
  intros Hid.
  pose proof (primary_only_handler_of_requested q youtube) as H. rewrite Hid in H.
  rewrite H. unfold PrimaryOnlyHandler.fetch_and_respond.
  split; [| split; [| split]].
  - intros info segments Hi Ht. rewrite Hi. cbn [bind]. rewrite Ht. reflexivity.
  - intros info Hi Ht. rewrite Hi. cbn [bind]. rewrite Ht. reflexivity.
  - intros err [Hi | [info [Hi Ht]]]; rewrite Hi; cbn [bind]; [| rewrite Ht]; reflexivity.
  - destruct (youtube id) as [info|e]; cbn [bind].
    + destruct (getTranscript info) as [[segments|]|e]; cbn [bind].
      * cbn. tauto.
      * cbn. tauto.
      * pose proof (primary_only_on_error_status id e) as Hs. cbn in Hs |- *. tauto.
    + pose proof (primary_only_on_error_status id e) as Hs. cbn in Hs |- *. tauto.
Qed.

Lemma primary_only_outcomes_witness :
  requested_id (Some "dQw4w9WgXcQ") = Some "dQw4w9WgXcQ" /\
  PrimaryOnlyHandler.handler (Some "dQw4w9WgXcQ") (youtube_with "Title" [])
  = success "Title" [].
Proof.
  split; [reflexivity |].
  exact (proj1 (primary_only_outcomes (Some "dQw4w9WgXcQ") "dQw4w9WgXcQ"
                  (youtube_with "Title" []) eq_refl)
               _ [] eq_refl eq_refl).
Defined.
